(** * rotki: the Convex decoder rules and the data-migration manager

    A shallow embedding of
    [rotkehlchen/chain/ethereum/modules/convex/decoder.py]
    (class [ConvexDecoder]) and of the data-migration manager exercised by
    [rotkehlchen/tests/data_migrations/test_migrations.py].

    Python objects that are mutated in place (history events) live in a heap
    indexed by references; a rule is a computation over a world made of that
    heap and of the message aggregator, and either returns or raises. *)

From Stdlib Require Import ZArith.
From Stdlib.Strings Require Import Byte.
From stdpp Require Import base decidable option list strings gmap functions
  pretty sorting.

Open Scope Z_scope.

(** ** Python values used by the rules *)

Definition bytes := list byte.

#[global] Instance byte_eq_decision : EqDecision byte := Byte.byte_eq_dec.

(** The objects met by the chained comparison of the decoder: [None],
    the two booleans and strings. *)
Inductive PyObj :=
  | PyNone
  | PyBool (b : bool)
  | PyStr (s : string).

#[global] Instance PyObj_eq_decision : EqDecision PyObj.
Proof. solve_decision. Defined.

(** [a == b] on these objects. *)
Definition py_eq (a b : PyObj) : bool := bool_decide (a = b).

(** [a is False]: identity with the singleton [False]. *)
Definition py_is_False (a : PyObj) : bool :=
  match a with
  | PyBool false => true
  | _ => false
  end.

(** An [Optional[str]] attribute read as an object. *)
Definition of_optional_str (o : option string) : PyObj :=
  match o with
  | Some s => PyStr s
  | None => PyNone
  end.

(** ** Exceptions and outcomes *)

Inductive AssetError := UnknownAsset | WrongAssetType.

Inductive Exception :=
  | IndexError
  | AssetException (e : AssetError).

Inductive Outcome (A : Type) :=
  | Returned (a : A)
  | Raised (e : Exception).
Arguments Returned {A} a.
Arguments Raised {A} e.

(** ** Enumerations of [rotkehlchen.accounting.structures.base]

    Only the members named by the decoder are listed; every other member of
    the enumerations is an [OTHER_...] value carrying its name. *)

Inductive HistoryEventType :=
  | SPEND
  | RECEIVE
  | DEPOSIT
  | WITHDRAWAL
  | OTHER_EVENT_TYPE (name : string).

Inductive HistoryEventSubType :=
  | NONE
  | RETURN_WRAPPED
  | REWARD
  | OTHER_EVENT_SUBTYPE (name : string).

#[global] Instance HistoryEventType_eq_decision : EqDecision HistoryEventType.
Proof. solve_decision. Defined.

#[global] Instance HistoryEventSubType_eq_decision :
  EqDecision HistoryEventSubType.
Proof. solve_decision. Defined.

(** ** Logs, transactions and contexts *)

(** References to history-event objects. *)
Definition ref := nat.

Record EvmTxReceiptLog := {
  address : string;          (* the emitting contract *)
  topics : list bytes;
  data : bytes
}.

Record EvmTransaction := {
  from_address : string
}.

Module DecoderContext.
Record t := {
  tx_log : EvmTxReceiptLog;
  transaction : EvmTransaction;
  decoded_events : list ref
}.
End DecoderContext.

Module EnricherContext.
Record t := {
  tx_log : EvmTxReceiptLog;
  transaction : EvmTransaction;
  event : ref
}.
End EnricherContext.

(** [seq[i]] on a Python list: [IndexError] out of range. *)
Definition index {A} (l : list A) (i : nat) : Outcome A :=
  match l !! i with
  | Some x => Returned x
  | None => Raised IndexError
  end.

(** Modelled from the spec: [hex_or_bytes_to_int] of
    [rotkehlchen.utils.misc] is not among the sources; on a byte string it
    reads a big-endian unsigned integer. *)
Definition hex_or_bytes_to_int (value : bytes) : Z :=
  fold_left (fun acc b => 256 * acc + Z.of_N (Byte.to_N b)) value 0.

(** ** Collaborators

    What the decoder imports from modules that are not among the sources:
    the decimal type [FVal], whose values are compared by value, the asset
    resolver, the amount normaliser, the address decoder and the static
    tables of the Convex module. *)
Class Collaborators := {
  FVal : Type;
  FVal_eq_decision :: EqDecision FVal;
  FVal_str : FVal -> string;               (* [str(amount)] in an f-string *)
  Asset : Type;
  CryptoAsset : Type;
  symbol : CryptoAsset -> string;
  resolve_to_crypto_asset : Asset -> AssetError + CryptoAsset;
  asset_normalized_value : Z -> CryptoAsset -> FVal;
  hex_or_bytes_to_address : bytes -> string;
  ZERO_ADDRESS : string;
  CPT_CONVEX : string;
  CONVEX_POOLS : gmap string string;
  CONVEX_ABRAS_HEX : list bytes;
  REWARD_TOPICS : list bytes;
  WITHDRAWAL_TOPICS : list bytes;
  ERC20_OR_ERC721_TRANSFER : bytes;
  DecodingOutput : Type;
  DEFAULT_DECODING_OUTPUT : DecodingOutput;
  TransferEnrichmentOutput : Type;
  DEFAULT_ENRICHMENT_OUTPUT : TransferEnrichmentOutput
}.

(** ** History events *)

Module Balance.
Record t `{Collaborators} := { amount : FVal }.
End Balance.

Module HistoryEvent.
Record t `{Collaborators} := {
  event_type : HistoryEventType;
  event_subtype : HistoryEventSubType;
  asset : Asset;
  balance : Balance.t;
  address : option string;       (* counterparty contract, or [None] *)
  location_label : option string;
  notes : option string;
  counterparty : option string
}.
End HistoryEvent.


(** Attribute assignments [event.<field> = v]. *)
Definition set_event_type `{Collaborators} (v : HistoryEventType)
    (e : HistoryEvent.t) : HistoryEvent.t :=
  {| HistoryEvent.event_type := v;
     HistoryEvent.event_subtype := HistoryEvent.event_subtype e;
     HistoryEvent.asset := HistoryEvent.asset e;
     HistoryEvent.balance := HistoryEvent.balance e;
     HistoryEvent.address := HistoryEvent.address e;
     HistoryEvent.location_label := HistoryEvent.location_label e;
     HistoryEvent.notes := HistoryEvent.notes e;
     HistoryEvent.counterparty := HistoryEvent.counterparty e |}.

Definition set_event_subtype `{Collaborators} (v : HistoryEventSubType)
    (e : HistoryEvent.t) : HistoryEvent.t :=
  {| HistoryEvent.event_type := HistoryEvent.event_type e;
     HistoryEvent.event_subtype := v;
     HistoryEvent.asset := HistoryEvent.asset e;
     HistoryEvent.balance := HistoryEvent.balance e;
     HistoryEvent.address := HistoryEvent.address e;
     HistoryEvent.location_label := HistoryEvent.location_label e;
     HistoryEvent.notes := HistoryEvent.notes e;
     HistoryEvent.counterparty := HistoryEvent.counterparty e |}.

Definition set_notes `{Collaborators} (v : string)
    (e : HistoryEvent.t) : HistoryEvent.t :=
  {| HistoryEvent.event_type := HistoryEvent.event_type e;
     HistoryEvent.event_subtype := HistoryEvent.event_subtype e;
     HistoryEvent.asset := HistoryEvent.asset e;
     HistoryEvent.balance := HistoryEvent.balance e;
     HistoryEvent.address := HistoryEvent.address e;
     HistoryEvent.location_label := HistoryEvent.location_label e;
     HistoryEvent.notes := Some v;
     HistoryEvent.counterparty := HistoryEvent.counterparty e |}.

Definition set_counterparty `{Collaborators} (v : string)
    (e : HistoryEvent.t) : HistoryEvent.t :=
  {| HistoryEvent.event_type := HistoryEvent.event_type e;
     HistoryEvent.event_subtype := HistoryEvent.event_subtype e;
     HistoryEvent.asset := HistoryEvent.asset e;
     HistoryEvent.balance := HistoryEvent.balance e;
     HistoryEvent.address := HistoryEvent.address e;
     HistoryEvent.location_label := HistoryEvent.location_label e;
     HistoryEvent.notes := HistoryEvent.notes e;
     HistoryEvent.counterparty := Some v |}.

(** ** The world of a rule and the monad of its computations *)

(** A call [notify_user(event=..., counterparty=...)]. *)
Record Notification := {
  about_event : ref;
  about_counterparty : string
}.

#[global] Instance Notification_eq_decision : EqDecision Notification.
Proof. solve_decision. Defined.

Record World `{Collaborators} := {
  heap : ref -> HistoryEvent.t;
  msg_aggregator : list Notification
}.

Definition Py `{Collaborators} (A : Type) : Type :=
  World -> Outcome A * World.

Section Monad.
Context `{Collaborators}.

Definition ret {A} (a : A) : Py A := fun w => (Returned a, w).

Definition bind {A B} (m : Py A) (k : A -> Py B) : Py B :=
  fun w =>
    match m w with
    | (Returned a, w') => k a w'
    | (Raised e, w') => (Raised e, w')
    end.

Definition raise {A} (e : Exception) : Py A := fun w => (Raised e, w).

Definition lift {A} (o : Outcome A) : Py A := fun w => (o, w).

(** [event.<field>], read from the object the reference points to. *)
Definition attr {A} (event : ref) (field : HistoryEvent.t -> A) : Py A :=
  fun w => (Returned (field (heap w event)), w).

(** [event.<field> = v], written to the object the reference points to. *)
Definition setattr (event : ref)
    (assign : HistoryEvent.t -> HistoryEvent.t) : Py unit :=
  fun w =>
    (Returned tt,
     {| heap := <[event := assign (heap w event)]> (heap w);
        msg_aggregator := msg_aggregator w |}).

(** Modelled from the spec: [DecoderInterface.notify_user] is not among the
    sources; it emits one user-facing notification, recorded here with the
    arguments of the call. *)
Definition notify_user (event : ref) (counterparty : string) : Py unit :=
  fun w =>
    (Returned tt,
     {| heap := heap w;
        msg_aggregator :=
          msg_aggregator w ++
          [{| about_event := event; about_counterparty := counterparty |}] |}).

End Monad.

Declare Scope py_scope.
Delimit Scope py_scope with py.
Notation "x <- m ;; k" := (bind m (fun x => k))
  (at level 100, m at next level, right associativity) : py_scope.
Notation "m ;;; k" := (bind m (fun _ => k))
  (at level 100, right associativity) : py_scope.
Open Scope py_scope.

(** [for x in xs: body(x)], where [continue] ends the body. *)
Fixpoint for_each `{Collaborators} {A} (xs : list A) (body : A -> Py unit)
    : Py unit :=
  match xs with
  | [] => ret tt
  | x :: xs' => body x ;;; for_each xs' body
  end.

(** ** [ConvexDecoder] *)

Section ConvexDecoder.
Context `{Collaborators}.

(** The guard of lines 53-56 of [decoder.py]:
    [event.location_label == context.transaction.from_address ==
     interacted_address is False or
     (event.address != ZERO_ADDRESS and event.balance.amount != amount)].
    A chain [a == b == c is False] is [a == b and b == c and c is False]. *)
Definition skip_guard (location_label : option string) (from_address : string)
    (interacted_address : string) (address : option string)
    (balance_amount amount : FVal) : bool :=
  (py_eq (of_optional_str location_label) (PyStr from_address)
   && py_eq (PyStr from_address) (PyStr interacted_address)
   && py_is_False (PyStr interacted_address))
  || (bool_decide (address ≠ Some ZERO_ADDRESS)
      && bool_decide (balance_amount ≠ amount)).

(** The f-strings of the notes: [verb] the amount and symbol, then
    [tail] convex, then the pool name when the emitting address is in
    [CONVEX_POOLS]. *)
Definition convex_note (verb : string) (balance_amount : FVal)
    (crypto_asset : CryptoAsset) (tail : string) (log_address : string)
    : string :=
  match CONVEX_POOLS !! log_address with
  | Some pool =>
      verb +:+ " " +:+ FVal_str balance_amount +:+ " " +:+
      symbol crypto_asset +:+ " " +:+ tail +:+ " convex " +:+ pool +:+ " pool"
  | None =>
      verb +:+ " " +:+ FVal_str balance_amount +:+ " " +:+
      symbol crypto_asset +:+ " " +:+ tail +:+ " convex"
  end.

(** The body of the loop of [_decode_convex_events], for one [event]. *)
Definition decode_convex_event (context : DecoderContext.t) (amount_raw : Z)
    (interacted_address : string) (event : ref) : Py unit :=
  let tx_log := DecoderContext.tx_log context in
  asset <- attr event HistoryEvent.asset ;;
  match resolve_to_crypto_asset asset with
  | inl _ =>
      (* except (UnknownAsset, WrongAssetType): notify and continue *)
      notify_user event CPT_CONVEX
  | inr crypto_asset =>
      let amount := asset_normalized_value amount_raw crypto_asset in
      location_label <- attr event HistoryEvent.location_label ;;
      event_address <- attr event HistoryEvent.address ;;
      balance_amount <- attr event (Balance.amount ∘ HistoryEvent.balance) ;;
      if skip_guard location_label
           (from_address (DecoderContext.transaction context))
           interacted_address event_address balance_amount amount
      then ret tt (* continue *)
      else
        event_type <- attr event HistoryEvent.event_type ;;
        event_subtype <- attr event HistoryEvent.event_subtype ;;
        if bool_decide (event_type = SPEND)
           && bool_decide (event_subtype = NONE)
        then
          event_address <- attr event HistoryEvent.address ;;
          if bool_decide (event_address = Some ZERO_ADDRESS)
          then
            setattr event (set_event_subtype RETURN_WRAPPED) ;;;
            setattr event (set_counterparty CPT_CONVEX) ;;;
            balance_amount <-
              attr event (Balance.amount ∘ HistoryEvent.balance) ;;
            setattr event
              (set_notes (convex_note "Return" balance_amount crypto_asset
                            "to" (address tx_log)))
          else
            setattr event (set_event_type DEPOSIT) ;;;
            setattr event (set_counterparty CPT_CONVEX) ;;;
            balance_amount <-
              attr event (Balance.amount ∘ HistoryEvent.balance) ;;
            setattr event
              (set_notes (convex_note "Deposit" balance_amount crypto_asset
                            "into" (address tx_log)))
        else if bool_decide (event_type = RECEIVE)
                && bool_decide (event_subtype = NONE)
        then
          topic0 <- lift (index (topics tx_log) 0) ;;
          if bool_decide (topic0 ∈ WITHDRAWAL_TOPICS)
          then
            setattr event (set_event_type WITHDRAWAL) ;;;
            balance_amount <-
              attr event (Balance.amount ∘ HistoryEvent.balance) ;;
            setattr event
              (set_notes (convex_note "Withdraw" balance_amount crypto_asset
                            "from" (address tx_log))) ;;;
            setattr event (set_counterparty CPT_CONVEX)
          else
            topic0 <- lift (index (topics tx_log) 0) ;;
            if bool_decide (topic0 ∈ REWARD_TOPICS)
            then
              setattr event (set_event_subtype REWARD) ;;;
              setattr event (set_counterparty CPT_CONVEX) ;;;
              balance_amount <-
                attr event (Balance.amount ∘ HistoryEvent.balance) ;;
              setattr event
                (set_notes (convex_note "Claim" balance_amount crypto_asset
                              "reward from" (address tx_log)))
            else ret tt
        else ret tt
  end.

(** [ConvexDecoder._decode_convex_events]. *)
Definition _decode_convex_events (context : DecoderContext.t)
    : Py DecodingOutput :=
  let tx_log := DecoderContext.tx_log context in
  let amount_raw := hex_or_bytes_to_int (take 32 (data tx_log)) in
  topic1 <- lift (index (topics tx_log) 1) ;;
  let interacted_address := hex_or_bytes_to_address topic1 in
  for_each (DecoderContext.decoded_events context)
    (decode_convex_event context amount_raw interacted_address) ;;;
  ret DEFAULT_DECODING_OUTPUT.

(** [ConvexDecoder._maybe_enrich_convex_transfers].  The conjunction of
    lines 107-113 is evaluated left to right and stops at the first false
    conjunct, so [topics[1]] is read only when [topics[0]] is the transfer
    signature. *)
Definition _maybe_enrich_convex_transfers (context : EnricherContext.t)
    : Py TransferEnrichmentOutput :=
  let tx_log := EnricherContext.tx_log context in
  let event := EnricherContext.event context in
  topic0 <- lift (index (topics tx_log) 0) ;;
  if negb (bool_decide (topic0 = ERC20_OR_ERC721_TRANSFER))
  then ret DEFAULT_ENRICHMENT_OUTPUT
  else
    topic1 <- lift (index (topics tx_log) 1) ;;
    if negb (bool_decide (topic1 ∈ CONVEX_ABRAS_HEX))
    then ret DEFAULT_ENRICHMENT_OUTPUT
    else
      location_label <- attr event HistoryEvent.location_label ;;
      if negb (bool_decide
                 (location_label =
                  Some (from_address (EnricherContext.transaction context))))
      then ret DEFAULT_ENRICHMENT_OUTPUT
      else
        event_type <- attr event HistoryEvent.event_type ;;
        if negb (bool_decide (event_type = RECEIVE))
        then ret DEFAULT_ENRICHMENT_OUTPUT
        else
          event_subtype <- attr event HistoryEvent.event_subtype ;;
          if negb (bool_decide (event_subtype = NONE))
          then ret DEFAULT_ENRICHMENT_OUTPUT
          else
            asset <- attr event HistoryEvent.asset ;;
            match resolve_to_crypto_asset asset with
            | inl e => raise (AssetException e)
            | inr crypto_asset =>
                setattr event (set_event_subtype REWARD) ;;;
                balance_amount <-
                  attr event (Balance.amount ∘ HistoryEvent.balance) ;;
                setattr event
                  (set_notes (convex_note "Claim" balance_amount crypto_asset
                                "reward from" (address tx_log))) ;;;
                setattr event (set_counterparty CPT_CONVEX) ;;;
                ret DEFAULT_ENRICHMENT_OUTPUT
            end.

End ConvexDecoder.

(** ** The net effect of one pass of the loop on one event *)

Section Decoded.
Context `{Collaborators}.

(** The event as one pass of the loop body leaves it, for a log whose first
    topic is [topic0]. *)
Definition decoded (context : DecoderContext.t) (amount_raw : Z)
    (interacted_address : string) (topic0 : bytes) (e : HistoryEvent.t)
    : HistoryEvent.t :=
  let log_address := address (DecoderContext.tx_log context) in
  let balance_amount := Balance.amount (HistoryEvent.balance e) in
  match resolve_to_crypto_asset (HistoryEvent.asset e) with
  | inl _ => e
  | inr crypto_asset =>
      if skip_guard (HistoryEvent.location_label e)
           (from_address (DecoderContext.transaction context))
           interacted_address (HistoryEvent.address e) balance_amount
           (asset_normalized_value amount_raw crypto_asset)
      then e
      else
        match HistoryEvent.event_type e, HistoryEvent.event_subtype e with
        | SPEND, NONE =>
            if bool_decide (HistoryEvent.address e = Some ZERO_ADDRESS)
            then
              set_notes (convex_note "Return" balance_amount crypto_asset
                           "to" log_address)
                (set_counterparty CPT_CONVEX
                   (set_event_subtype RETURN_WRAPPED e))
            else
              set_notes (convex_note "Deposit" balance_amount crypto_asset
                           "into" log_address)
                (set_counterparty CPT_CONVEX (set_event_type DEPOSIT e))
        | RECEIVE, NONE =>
            if bool_decide (topic0 ∈ WITHDRAWAL_TOPICS)
            then
              set_counterparty CPT_CONVEX
                (set_notes (convex_note "Withdraw" balance_amount
                              crypto_asset "from" log_address)
                   (set_event_type WITHDRAWAL e))
            else if bool_decide (topic0 ∈ REWARD_TOPICS)
            then
              set_notes (convex_note "Claim" balance_amount crypto_asset
                           "reward from" log_address)
                (set_counterparty CPT_CONVEX (set_event_subtype REWARD e))
            else e
        | _, _ => e
        end
  end.

(** The notification one pass emits for an event. *)
Definition notified (event : ref) (e : HistoryEvent.t) : list Notification :=
  match resolve_to_crypto_asset (HistoryEvent.asset e) with
  | inl _ => [{| about_event := event; about_counterparty := CPT_CONVEX |}]
  | inr _ => []
  end.

End Decoded.

(** ** The correlations and conditions the specification names *)

Section Correlations.
Context `{Collaborators}.

(** The raw amount of a log: the first 32 bytes of its data. *)
Definition raw_amount (log : EvmTxReceiptLog) : Z :=
  hex_or_bytes_to_int (take 32 (data log)).

(** Acting-party correlation, in the words of the specification: the event's
    location label, the initiating address of the transaction and the
    address decoded from the second topic of the log are all equal. *)
Definition acting_party_match (context : DecoderContext.t)
    (e : HistoryEvent.t) : Prop :=
  exists topic1,
    topics (DecoderContext.tx_log context) !! 1%nat = Some topic1
    /\ HistoryEvent.location_label e
       = Some (from_address (DecoderContext.transaction context))
    /\ from_address (DecoderContext.transaction context)
       = hex_or_bytes_to_address topic1.

(** Amount correlation, in the words of the specification: the event's
    address is the zero address, or its balance amount is the raw amount of
    the log normalised by the event's asset. *)
Definition amount_match (context : DecoderContext.t) (e : HistoryEvent.t)
    : Prop :=
  HistoryEvent.address e = Some ZERO_ADDRESS
  \/ exists crypto_asset,
       resolve_to_crypto_asset (HistoryEvent.asset e) = inr crypto_asset
       /\ Balance.amount (HistoryEvent.balance e)
          = asset_normalized_value
              (raw_amount (DecoderContext.tx_log context)) crypto_asset.

(** The four conditions of the enrichment rule. *)
Definition enrichment_conditions (context : EnricherContext.t)
    (e : HistoryEvent.t) : Prop :=
  let tx_log := EnricherContext.tx_log context in
  topics tx_log !! 0%nat = Some ERC20_OR_ERC721_TRANSFER
  /\ (exists topic1,
        topics tx_log !! 1%nat = Some topic1 /\ topic1 ∈ CONVEX_ABRAS_HEX)
  /\ HistoryEvent.location_label e
     = Some (from_address (EnricherContext.transaction context))
  /\ HistoryEvent.event_type e = RECEIVE
  /\ HistoryEvent.event_subtype e = NONE.

(** A note mentions a word when the word occurs in it. *)
Definition mentions (word note : string) : Prop :=
  exists before after, note = before +:+ word +:+ after.

(** The context without the event [r] in its list. *)
Definition without (r : ref) (context : DecoderContext.t)
    : DecoderContext.t :=
  {| DecoderContext.tx_log := DecoderContext.tx_log context;
     DecoderContext.transaction := DecoderContext.transaction context;
     DecoderContext.decoded_events :=
       filter (fun r' => r' ≠ r) (DecoderContext.decoded_events context) |}.

(** The event as the enrichment rule leaves it on a match. *)
Definition enriched (context : EnricherContext.t)
    (crypto_asset : CryptoAsset) (e : HistoryEvent.t) : HistoryEvent.t :=
  {| HistoryEvent.event_type := HistoryEvent.event_type e;
     HistoryEvent.event_subtype := REWARD;
     HistoryEvent.asset := HistoryEvent.asset e;
     HistoryEvent.balance := HistoryEvent.balance e;
     HistoryEvent.address := HistoryEvent.address e;
     HistoryEvent.location_label := HistoryEvent.location_label e;
     HistoryEvent.notes :=
       Some (convex_note "Claim" (Balance.amount (HistoryEvent.balance e))
               crypto_asset "reward from"
               (address (EnricherContext.tx_log context)));
     HistoryEvent.counterparty := Some CPT_CONVEX |}.

(** The contract of the enrichment rule in the words of the specification:
    the event is reclassified (subtype [REWARD], counterparty tag, reward
    note) if and only if the four conditions hold, and when a condition
    fails the rule returns its default output and leaves the event as it
    was. *)
Definition reclassified_as_reward (e : HistoryEvent.t) : Prop :=
  HistoryEvent.event_subtype e = REWARD
  /\ HistoryEvent.counterparty e = Some CPT_CONVEX
  /\ exists note, HistoryEvent.notes e = Some note /\ mentions "reward" note.

Definition enrichment_contract_as_specified (context : EnricherContext.t)
    (w : World) : Prop :=
  let event := EnricherContext.event context in
  let run := _maybe_enrich_convex_transfers context w in
  (reclassified_as_reward (heap (snd run) event)
   <-> enrichment_conditions context (heap w event))
  /\ (¬ enrichment_conditions context (heap w event) ->
      fst run = Returned DEFAULT_ENRICHMENT_OUTPUT
      /\ heap (snd run) event = heap w event).

End Correlations.

(** * The data-migration manager

    [rotkehlchen/data_migrations/manager.py] is not among the sources: only
    its tests are.  The manager is modelled from section 4.4 of the
    specification.  The tests import two objects from it, the list
    [MIGRATION_LIST], which they replace before a call, and the constant
    [LAST_DATA_MIGRATION], which they leave alone; both are arguments of the
    model. *)

Module DataMigrationManager.

Local Open Scope nat_scope.

Section Manager.

(** The contents of the user database apart from the marker. *)
Variable DB : Type.

(** Modelled from the spec: how a call of a migration function of the
    absent manager ends; it returns, or it raises an exception that carries
    a message. *)
Inductive Completion :=
  | Completes
  | Raises (message : string).

(** Modelled from the spec: [MigrationRecord] of the absent manager,
    [{ version: integer, function: (context, progress_handler) -> void }];
    the function is given by its effect on the database and by how it
    ends. *)
Record MigrationRecord := {
  version : nat;
  function : DB -> Completion * DB
}.

(** Modelled from the spec: what the absent manager acts on; the persisted
    marker ([None] when the settings have no [last_data_migration] row), the
    database, the errors recorded by the message aggregator, and the trace
    of the versions whose function was invoked. *)
Record Rotki := {
  last_data_migration : option nat;
  db : DB;
  errors : list string;
  invoked : list nat
}.

Definition version_le (r1 r2 : MigrationRecord) : Prop :=
  version r1 <= version r2.

#[global] Instance version_le_decision r1 r2 : Decision (version_le r1 r2).
Proof. unfold version_le. apply _. Defined.

(** Modelled from the spec: the test of step 2 of [maybe_migrate_data] of
    the absent manager, [version > m]; an absent marker is treated as no
    migration ever run, so it covers no record. *)
Definition unapplied (m : option nat) (r : MigrationRecord) : Prop :=
  match m with
  | Some v => v < version r
  | None => True
  end.

#[global] Instance unapplied_decision m r : Decision (unapplied m r).
Proof. destruct m; cbn; apply _. Defined.

(** Modelled from the spec: step 2 of [maybe_migrate_data] of the absent
    manager, the records with [version > m] sorted ascending by version. *)
Definition select (MIGRATION_LIST : list MigrationRecord) (m : option nat)
    : list MigrationRecord :=
  merge_sort version_le (filter (unapplied m) MIGRATION_LIST).

(** Modelled from the spec: the text of the error report of the absent
    manager. *)
Definition failure_message (v : nat) (message : string) : string :=
  "Failed to run soft data migration to version " +:+ pretty v +:+
  " due to " +:+ message.

(** Modelled from the spec: step 4 of [maybe_migrate_data] of the absent
    manager.  A function that raises is reported once and ends the run; a
    function that returns commits its version to the marker before the next
    record is taken. *)
Fixpoint run_migrations (selected : list MigrationRecord) (rotki : Rotki)
    : Rotki :=
  match selected with
  | [] => rotki
  | record :: rest =>
      match function record (db rotki) with
      | (Raises message, db') =>
          {| last_data_migration := last_data_migration rotki;
             db := db';
             errors :=
               errors rotki ++ [failure_message (version record) message];
             invoked := invoked rotki ++ [version record] |}
      | (Completes, db') =>
          run_migrations rest
            {| last_data_migration := Some (version record);
               db := db';
               errors := errors rotki;
               invoked := invoked rotki ++ [version record] |}
      end
  end.

(** Modelled from the spec: [DataMigrationManager.maybe_migrate_data] of the
    absent manager, steps 1 to 5. *)
Definition maybe_migrate_data (MIGRATION_LIST : list MigrationRecord)
    (LAST_DATA_MIGRATION : nat) (rotki : Rotki) : Rotki :=
  let m := last_data_migration rotki in
  match select MIGRATION_LIST m, m with
  | [], Some _ => rotki
  | [], None =>
      {| last_data_migration := Some LAST_DATA_MIGRATION;
         db := db rotki;
         errors := errors rotki;
         invoked := invoked rotki |}
  | selected, _ => run_migrations selected rotki
  end.

(** Modelled from the spec: the value of [LAST_DATA_MIGRATION] of the absent
    manager, the highest version number across all registered migrations. *)
Definition highest_version (registered : list MigrationRecord) : nat :=
  max_list (version <$> registered).

(** The selected migrations all return, each run on the database left by the
    one before it. *)
Fixpoint all_complete (selected : list MigrationRecord) (d : DB) : bool :=
  match selected with
  | [] => true
  | record :: rest =>
      match function record d with
      | (Completes, d') => all_complete rest d'
      | (Raises _, _) => false
      end
  end.

(** The database the selected migrations leave, each run on the database
    left by the one before it. *)
Fixpoint db_after (selected : list MigrationRecord) (d : DB) : DB :=
  match selected with
  | [] => d
  | record :: rest => db_after rest (snd (function record d))
  end.

(** The marker after the migrations of the given versions have completed
    one after the other: the last of them, or the marker as it was. *)
Definition marker_after (completed : list nat) (m : option nat)
    : option nat :=
  match last completed with
  | Some v => Some v
  | None => m
  end.

End Manager.

Arguments db_after {DB} _ _.
Arguments all_complete {DB} _ _.
Arguments select {DB} _ _.
Arguments run_migrations {DB} _ _.
Arguments maybe_migrate_data {DB} _ _ _.
Arguments highest_version {DB} _.
Arguments unapplied {DB} _ _.
Arguments version_le {DB} _ _.

Arguments version {DB} _.
Arguments function {DB} _ _.
Arguments last_data_migration {DB} _.
Arguments db {DB} _.
Arguments errors {DB} _.
Arguments invoked {DB} _.

(** ** Concrete migrations

    The database is the list of the names of the migrations applied to it. *)

Definition applies (name : string)
    : list string -> Completion * list string :=
  fun d => (Completes, d ++ [name]).

(** [botched_migration] of [test_failed_migration]:
    [raise ValueError('ngmi')]. *)
Definition botched_migration : list string -> Completion * list string :=
  fun d => (Raises "ngmi", d).

Definition migration (v : nat) : MigrationRecord (list string) :=
  {| version := v; function := applies (pretty v) |}.

Definition botched (v : nat) : MigrationRecord (list string) :=
  {| version := v; function := botched_migration |}.

(** A database whose settings hold the marker [m]. *)
Definition database (m : option nat) : Rotki (list string) :=
  {| last_data_migration := m; db := []; errors := []; invoked := [] |}.

End DataMigrationManager.

(** * A concrete environment

    One instance of the collaborators, on which the rules are run: amounts
    are integers and the tokens have no decimals, so normalising a raw amount
    leaves it as it is; an address is printed in lower-case hexadecimal. *)

Module Scenario.

Local Open Scope Z_scope.

Definition hex_digit (n : N) : string :=
  match n with
  | 0 => "0" | 1 => "1" | 2 => "2" | 3 => "3" | 4 => "4" | 5 => "5"
  | 6 => "6" | 7 => "7" | 8 => "8" | 9 => "9" | 10 => "a" | 11 => "b"
  | 12 => "c" | 13 => "d" | 14 => "e" | _ => "f"
  end%N.

Definition hex_byte (b : byte) : string :=
  hex_digit (Byte.to_N b / 16) +:+ hex_digit (Byte.to_N b mod 16).

Fixpoint hex (bs : bytes) : string :=
  match bs with
  | [] => ""
  | b :: bs' => hex_byte b +:+ hex bs'
  end.

(** The last 20 bytes of a topic, as an address. *)
Definition topic_address (topic : bytes) : string :=
  "0x" +:+ hex (drop (length topic - 20) topic).

(** A 32-byte topic holding the address that ends in [b]. *)
Definition address_topic (b : byte) : bytes := replicate 31 x00 ++ [b].

(** A 32-byte event signature starting with [b]. *)
Definition signature (b : byte) : bytes := b :: replicate 31 x00.

(** A 32-byte word holding the small amount [b]. *)
Definition amount_word (b : byte) : bytes := replicate 31 x00 ++ [b].

Definition alice : string := topic_address (address_topic xa1).
Definition bob : string := topic_address (address_topic xb2).
Definition carol : string := topic_address (address_topic xc3).
Definition booster : string := topic_address (address_topic xf4).
Definition pool : string := topic_address (address_topic x68).
Definition zero : string := topic_address (address_topic x00).

Definition deposited_signature : bytes := signature x9e.
Definition withdrawn_signature : bytes := signature x70.
Definition reward_paid_signature : bytes := signature xe2.
Definition transfer_signature : bytes := signature xdd.
Definition abra_topic : bytes := address_topic x3b.

(** The resolver knows the token [CVX]; [an-nft] is an asset of the wrong
    kind and every other identifier is unknown. *)
Definition resolve (asset : string) : AssetError + string :=
  if bool_decide (asset = "CVX") then inr "CVX"
  else if bool_decide (asset = "an-nft") then inl WrongAssetType
  else inl UnknownAsset.

#[export] Instance collaborators : Collaborators := {|
  FVal := Z;
  FVal_str := pretty;
  Asset := string;
  CryptoAsset := string;
  symbol := id;
  resolve_to_crypto_asset := resolve;
  asset_normalized_value := fun amount_raw _ => amount_raw;
  hex_or_bytes_to_address := topic_address;
  ZERO_ADDRESS := zero;
  CPT_CONVEX := "convex";
  CONVEX_POOLS := {[ pool := "cDAI+cUSDC" ]};
  CONVEX_ABRAS_HEX := [abra_topic];
  REWARD_TOPICS := [reward_paid_signature];
  WITHDRAWAL_TOPICS := [withdrawn_signature];
  ERC20_OR_ERC721_TRANSFER := transfer_signature;
  DecodingOutput := unit;
  DEFAULT_DECODING_OUTPUT := tt;
  TransferEnrichmentOutput := unit;
  DEFAULT_ENRICHMENT_OUTPUT := tt
|}.

(** A history event as the generic pass leaves it. *)
Definition placeholder (event_type : HistoryEventType) (asset : string)
    (amount : Z) (address location_label : option string)
    : HistoryEvent.t :=
  {| HistoryEvent.event_type := event_type;
     HistoryEvent.event_subtype := NONE;
     HistoryEvent.asset := asset;
     HistoryEvent.balance := {| Balance.amount := amount |};
     HistoryEvent.address := address;
     HistoryEvent.location_label := location_label;
     HistoryEvent.notes := None;
     HistoryEvent.counterparty := None |}.

(** A world with the given event objects at references 0, 1, ...; every
    other reference holds [filler]. *)
Definition filler : HistoryEvent.t :=
  placeholder (OTHER_EVENT_TYPE "informational") "CVX" 0 None None.

Definition world_of (events : list HistoryEvent.t) : World :=
  {| heap := fun r => default filler (events !! r);
     msg_aggregator := [] |}.

Definition log_of (emitter : string) (signature interacted amount : bytes)
    : EvmTxReceiptLog :=
  {| address := emitter;
     topics := [signature; interacted];
     data := amount |}.

Definition decoder_context (log : EvmTxReceiptLog) (sender : string)
    (events : list ref) : DecoderContext.t :=
  {| DecoderContext.tx_log := log;
     DecoderContext.transaction := {| from_address := sender |};
     DecoderContext.decoded_events := events |}.

Definition enricher_context (log : EvmTxReceiptLog) (sender : string)
    (event : ref) : EnricherContext.t :=
  {| EnricherContext.tx_log := log;
     EnricherContext.transaction := {| from_address := sender |};
     EnricherContext.event := event |}.

(** A deposit of 5 into the pool, emitted for [interacted]. *)
Definition deposit_log (interacted : byte) : EvmTxReceiptLog :=
  log_of pool deposited_signature (address_topic interacted)
    (amount_word x05).

(** A reward of 5 paid by the pool to the address ending in [a1]. *)
Definition reward_log : EvmTxReceiptLog :=
  log_of pool reward_paid_signature (address_topic xa1) (amount_word x05).

(** A transfer of 5 from an intermediary token, emitted by a contract
    outside the pool table. *)
Definition abra_transfer_log : EvmTxReceiptLog :=
  log_of booster transfer_signature abra_topic (amount_word x05).

(** Bob's spend of 5 to the pool, in a transaction that Alice sent and whose
    log names Carol. *)
Definition stranger_world : World :=
  world_of [placeholder SPEND "CVX" 5 (Some pool) (Some bob)].

Definition stranger_context : DecoderContext.t :=
  decoder_context (deposit_log xc3) alice [0%nat].

(** Alice's spend of 7 to the pool, against a log for 5. *)
Definition mismatch_world : World :=
  world_of [placeholder SPEND "CVX" 7 (Some pool) (Some alice)].

Definition alice_context (events : list ref) : DecoderContext.t :=
  decoder_context (deposit_log xa1) alice events.

(** Alice's spend of 9 to the zero address, against a log for 5. *)
Definition burn_world : World :=
  world_of [placeholder SPEND "CVX" 9 (Some zero) (Some alice)].

(** Alice's receipt of 5 from the pool. *)
Definition receive_world : World :=
  world_of [placeholder RECEIVE "CVX" 5 (Some pool) (Some alice)].

Definition reward_context : DecoderContext.t :=
  decoder_context reward_log alice [0%nat].

(** Two spends of 5 by Alice: one of an asset the resolver does not know,
    one of [CVX]. *)
Definition mixed_world : World :=
  world_of [placeholder SPEND "mystery" 5 (Some pool) (Some alice);
            placeholder SPEND "CVX" 5 (Some pool) (Some alice)].

(** Alice's receipt of 5 of an asset, paid through an intermediary token. *)
Definition abra_world (asset : string) : World :=
  world_of [placeholder RECEIVE asset 5 (Some booster) (Some alice)].

Definition abra_context : EnricherContext.t :=
  enricher_context abra_transfer_log alice 0%nat.

(** The same transfer in a log that carries no topic at all. *)
Definition topicless_context : EnricherContext.t :=
  enricher_context {| address := booster; topics := []; data := [] |}
    alice 0%nat.

End Scenario.

(** * Further notions: what the rules keep, and the decoder registry *)

Section Kept.
Context `{Collaborators}.

(** The fields of a history event that no rule of the module assigns. *)
Definition same_identity (e1 e2 : HistoryEvent.t) : Prop :=
  HistoryEvent.asset e1 = HistoryEvent.asset e2
  /\ HistoryEvent.balance e1 = HistoryEvent.balance e2
  /\ HistoryEvent.address e1 = HistoryEvent.address e2
  /\ HistoryEvent.location_label e1 = HistoryEvent.location_label e2.

(** Two events agree on every field but the notes. *)
Definition agree_but_notes (e1 e2 : HistoryEvent.t) : Prop :=
  HistoryEvent.event_type e1 = HistoryEvent.event_type e2
  /\ HistoryEvent.event_subtype e1 = HistoryEvent.event_subtype e2
  /\ HistoryEvent.counterparty e1 = HistoryEvent.counterparty e2
  /\ same_identity e1 e2.

(** An event the generic pass has left for the rules to classify. *)
Definition unclassified (e : HistoryEvent.t) : Prop :=
  (HistoryEvent.event_type e = SPEND \/ HistoryEvent.event_type e = RECEIVE)
  /\ HistoryEvent.event_subtype e = NONE.

(** The reclassifications the decoder rule performs: a spend becomes a
    return of wrapped tokens or a deposit, a receipt becomes a withdrawal or
    a reward. *)
Definition reclassified_from (e e' : HistoryEvent.t) : Prop :=
  (HistoryEvent.event_type e = SPEND
   /\ ((HistoryEvent.event_type e' = SPEND
        /\ HistoryEvent.event_subtype e' = RETURN_WRAPPED)
       \/ (HistoryEvent.event_type e' = DEPOSIT
           /\ HistoryEvent.event_subtype e' = NONE)))
  \/ (HistoryEvent.event_type e = RECEIVE
      /\ ((HistoryEvent.event_type e' = WITHDRAWAL
           /\ HistoryEvent.event_subtype e' = NONE)
          \/ (HistoryEvent.event_type e' = RECEIVE
              /\ HistoryEvent.event_subtype e' = REWARD))).

(** The asset of the event behind a reference does not resolve. *)
Definition unresolvable (w : World) (r : ref) : Prop :=
  exists err,
    resolve_to_crypto_asset (HistoryEvent.asset (heap w r)) = inl err.

#[global] Instance unresolvable_decision w r : Decision (unresolvable w r).
Proof.
  unfold unresolvable.
  destruct (resolve_to_crypto_asset (HistoryEvent.asset (heap w r)))
    as [err|crypto_asset].
  - left. by exists err.
  - right. intros [err Herr]. discriminate.
Defined.

(** The same context for a log emitted by another address. *)
Definition emitted_by (emitter : string) (context : DecoderContext.t)
    : DecoderContext.t :=
  {| DecoderContext.tx_log :=
       {| address := emitter;
          topics := topics (DecoderContext.tx_log context);
          data := data (DecoderContext.tx_log context) |};
     DecoderContext.transaction := DecoderContext.transaction context;
     DecoderContext.decoded_events :=
       DecoderContext.decoded_events context |}.

End Kept.

(** ** The registry of [ConvexDecoder]

    The addresses the registry is built from, imported by [decoder.py] from
    the constants of the Convex module, which are not among the sources. *)
Class RegistryConstants := {
  BOOSTER : string;
  CVX_LOCKER : string;
  CVX_LOCKER_V2 : string;
  CVX_REWARDS : string;
  CVXCRV_REWARDS : string;
  CONVEX_VIRTUAL_REWARDS : list string
}.

Section Registry.
Context `{Collaborators} `{RegistryConstants}.

(** A decoder rule, as the registry holds it: the bound method. *)
Definition DecoderRule : Type := DecoderContext.t -> Py DecodingOutput.

(** An enricher rule. *)
Definition EnricherRule : Type :=
  EnricherContext.t -> Py TransferEnrichmentOutput.

(** [dict.update]: the entries of [other] replace those of the dictionary. *)
Definition update {V} (mappings other : gmap string V) : gmap string V :=
  other ∪ mappings.

(** [ConvexDecoder.addresses_to_decoders]. *)
Definition addresses_to_decoders : gmap string (list DecoderRule) :=
  let decoder_mappings : gmap string (list DecoderRule) :=
    <[CVXCRV_REWARDS := [_decode_convex_events]]>
      (<[CVX_REWARDS := [_decode_convex_events]]>
         (<[CVX_LOCKER_V2 := [_decode_convex_events]]>
            (<[CVX_LOCKER := [_decode_convex_events]]>
               (<[BOOSTER := [_decode_convex_events]]> ∅)))) in
  let pools : gmap string (list DecoderRule) :=
    (fun _ => [_decode_convex_events]) <$> CONVEX_POOLS in
  let virtual_rewards : gmap string (list DecoderRule) :=
    list_to_map
      ((fun addr => (addr, [_decode_convex_events]))
         <$> CONVEX_VIRTUAL_REWARDS) in
  update (update decoder_mappings pools) virtual_rewards.

(** [ConvexDecoder.counterparties]. *)
Definition counterparties : list string := [CPT_CONVEX].

(** [ConvexDecoder.enricher_rules]. *)
Definition enricher_rules : list EnricherRule :=
  [_maybe_enrich_convex_transfers].

(** The addresses the registry is built from. *)
Definition registered (a : string) : Prop :=
  a ∈ [BOOSTER; CVX_LOCKER; CVX_LOCKER_V2; CVX_REWARDS; CVXCRV_REWARDS]
  \/ is_Some (CONVEX_POOLS !! a)
  \/ a ∈ CONVEX_VIRTUAL_REWARDS.

End Registry.

(** * [EthereumInquirer]

    A shallow embedding of the methods of
    [rotkehlchen/chain/ethereum/node_inquirer.py] that decide what is asked
    of which remote service and what becomes of the answers.  The remote
    services are a state machine of an arbitrary state type; a computation
    threads that state and the log of the calls it has made, and either
    returns or raises. *)

Module EthereumInquirer.

Local Open Scope Z_scope.

(** ** Exceptions and results

    An exception is identified by its class (a class stands for its
    subclasses too); the message is kept for the classes whose message the
    code builds or reads. *)
Inductive Exception :=
  | RemoteError (message : string)
  | InputError (message : string)
  | UnableToDecryptRemoteData
  | RequestException
  | KeyError
  | IndexError
  | TypeError
  | ValueError
  | OtherException (name : string).

Inductive Result (A : Type) :=
  | Return (a : A)
  | Raise (e : Exception).
Arguments Return {A} a.
Arguments Raise {A} e.

(** ** The values of a decoded response *)

#[warnings="-register-all"]
Inductive Json :=
  | JNull
  | JBool (b : bool)
  | JInt (z : Z)
  | JFloat (literal : string)
  | JStr (s : string)
  | JList (l : list Json)
  | JDict (d : gmap string Json).

(** [x[key]] for a string [key]: a lookup in a [dict], [KeyError] when the
    key is missing; every other value refuses a string subscript. *)
Definition getitem_key (x : Json) (key : string) : Result Json :=
  match x with
  | JDict d =>
      match d !! key with
      | Some v => Return v
      | None => Raise KeyError
      end
  | _ => Raise TypeError
  end.

(** [x[i]] for an index [i >= 0]: an element of a [list] or a character of
    a [str], [IndexError] out of range; a [dict] of a decoded response has
    string keys only, so it raises [KeyError]; the other values are not
    subscriptable. *)
Definition getitem_index (x : Json) (i : nat) : Result Json :=
  match x with
  | JList l =>
      match l !! i with
      | Some v => Return v
      | None => Raise IndexError
      end
  | JStr s =>
      match String.get i s with
      | Some c => Return (JStr (String c EmptyString))
      | None => Raise IndexError
      end
  | JDict _ => Raise KeyError
  | _ => Raise TypeError
  end.

Inductive Closest := before | after.

Inductive SupportedBlockchain :=
  | ETHEREUM
  | BITCOIN
  | BITCOIN_CASH
  | KUSAMA
  | POLKADOT
  | OTHER_BLOCKCHAIN (name : string).

#[global] Instance SupportedBlockchain_eq_decision :
  EqDecision SupportedBlockchain.
Proof. solve_decision. Defined.

(** An argument of a contract call. *)
Inductive Argument :=
  | ArgBytes (b : bytes)
  | ArgInt (z : Z).

(** ** The collaborators of the inquirer

    The library functions the methods use and the remote services they
    call, none of which is among the sources.  A remote call is given the
    state of the remote services and leaves a new one. *)
Class Network := {
  Remote : Type;
  Web3 : Type;
  Value : Type;                         (* what a contract call returns *)
  AbiEntry : Type;
  (* pure library functions *)
  get_chunks : list string -> nat -> list (list string);
  int_of_str : string -> option Z;      (* [int(s)]; [None]: [ValueError] *)
  int_of_float : string -> Result Z;    (* [int(f)] of the float written *)
  py_str : Json -> string;              (* [str(x)] in an f-string *)
  normalize_name : string -> string + string;   (* [inl]: [InvalidName] *)
  normal_name_to_hash : string -> bytes;
  is_none_or_zero_address : Value -> bool;
  deserialize_evm_address : Value -> option string;
                                        (* [None]: [DeserializationError] *)
  value_hex : Value -> string;          (* [address.hex()] *)
  ens_coin_type : SupportedBlockchain -> Z;
  ENS_MAINNET_ADDR : string;
  ENS_ABI : list AbiEntry;
  ENS_RESOLVER_ABI : list AbiEntry;
  ENS_RESOLVER_ABI_MULTICHAIN_ADDRESS : list AbiEntry;
  (* remote calls *)
  ens_reverse_records_getNames :
    list string -> Remote -> Result (list string) * Remote;
  etherscan_get_blocknumber_by_time :
    Z -> Closest -> Remote -> Result Z * Remote;
  etherscan_get_latest_block_number : Remote -> Result Z * Remote;
  blocks_subgraph_query : string -> Remote -> Result Json * Remote;
  request_get_dict : string -> Remote -> Result (gmap string Json) * Remote;
  _call_contract :
    option Web3 -> string -> list AbiEntry -> string -> list Argument ->
    Remote -> Result Value * Remote
}.

(** The calls a method makes, as the log records them. *)
Inductive Call `{Network} :=
  | CallGetNames (chunk : list string)
  | CallEtherscanBlocknumberByTime (ts : Z) (closest : Closest)
  | CallEtherscanLatestBlockNumber
  | CallBlocksSubgraph (querystr : string)
  | CallRequestGetDict (url : string)
  | CallContract (web3 : option Web3) (contract_address : string)
      (abi : list AbiEntry) (method_name : string)
      (arguments : list Argument).

Record Node `{Network} := {
  remote : Remote;
  calls : list Call
}.

Definition M `{Network} (A : Type) : Type := Node -> Result A * Node.

Section Inquirer.
Context `{Network}.

Definition ret {A} (a : A) : M A := fun n => (Return a, n).

Definition raise {A} (e : Exception) : M A := fun n => (Raise e, n).

Definition bind {A B} (m : M A) (k : A -> M B) : M B :=
  fun n =>
    match m n with
    | (Return a, n') => k a n'
    | (Raise e, n') => (Raise e, n')
    end.

Definition lift {A} (r : Result A) : M A := fun n => (r, n).

(** A call of a remote service: it is logged, and the state of the remote
    services moves on, whether the call returns or raises. *)
Definition external {A} (call : Call)
    (service : Remote -> Result A * Remote) : M A :=
  fun n =>
    let '(r, remote') := service (remote n) in
    (r, {| remote := remote'; calls := calls n ++ [call] |}).

(** [try: m  except classes: handler]. *)
Definition try_except {A} (m : M A) (caught : Exception -> bool)
    (handler : Exception -> M A) : M A :=
  fun n =>
    match m n with
    | (Return a, n') => (Return a, n')
    | (Raise e, n') => if caught e then handler e n' else (Raise e, n')
    end.

(** [int(x)] on a value of a decoded response. *)
Definition py_int (x : Json) : Result Z :=
  match x with
  | JInt z => Return z
  | JBool b => Return (if b then 1 else 0)
  | JStr s =>
      match int_of_str s with
      | Some z => Return z
      | None => Raise ValueError
      end
  | JFloat literal => int_of_float literal
  | JNull | JList _ | JDict _ => Raise TypeError
  end.

Definition MAX_ADDRESSES_IN_REVERSE_ENS_QUERY : nat := 80.

Definition BLOCKCYPHER_URL : string :=
  "https://api.blockcypher.com/v1/eth/main".

(** ** [ens_reverse_lookup] *)

(** The inner loop, [for addr, name in zip(chunk, result)]. *)
Fixpoint record_names (pairs : list (string * string))
    (human_names : gmap string (option string))
    : gmap string (option string) :=
  match pairs with
  | [] => human_names
  | (addr, name) :: rest =>
      record_names rest
        (if bool_decide (name = "")
         then <[addr := None]> human_names
         else <[addr := Some name]> human_names)
  end.

(** The outer loop, [for chunk in chunks]. *)
Fixpoint lookup_chunks (chunks : list (list string))
    (human_names : gmap string (option string))
    : M (gmap string (option string)) :=
  match chunks with
  | [] => ret human_names
  | chunk :: rest =>
      bind (external (CallGetNames chunk)
              (ens_reverse_records_getNames chunk))
        (fun result =>
           lookup_chunks rest (record_names (zip chunk result) human_names))
  end.

(** [EthereumInquirer.ens_reverse_lookup]. *)
Definition ens_reverse_lookup (addresses : list string)
    : M (gmap string (option string)) :=
  let chunks := get_chunks addresses MAX_ADDRESSES_IN_REVERSE_ENS_QUERY in
  lookup_chunks chunks ∅.

(** ** [query_highest_block] *)

(** [EthereumInquirer.query_highest_block]. *)
Definition query_highest_block : M Z :=
  bind
    (try_except
       (bind (external (CallRequestGetDict BLOCKCYPHER_URL)
                (request_get_dict BLOCKCYPHER_URL))
          (fun d => ret (Some d)))
       (fun e =>
          match e with
          | RemoteError _ | UnableToDecryptRemoteData | RequestException =>
              true
          | _ => false
          end)
       (fun _ => ret None))
    (fun eth_resp =>
       match eth_resp with
       | Some d =>
           (* [eth_resp and 'height' in eth_resp] *)
           if bool_decide (size d ≠ 0%nat)
              && bool_decide (is_Some (d !! "height"))
           then
             bind (lift (getitem_key (JDict d) "height"))
               (fun height => lift (py_int height))
           else
             external CallEtherscanLatestBlockNumber
               etherscan_get_latest_block_number
       | None =>
           external CallEtherscanLatestBlockNumber
             etherscan_get_latest_block_number
       end).

(** ** [_get_blocknumber_by_time_from_subgraph] *)

Definition rbind {A B} (r : Result A) (k : A -> Result B) : Result B :=
  match r with
  | Return a => k a
  | Raise e => Raise e
  end.

Definition nl : string := String (Ascii.ascii_of_nat 10) EmptyString.

Definition quote : string := String (Ascii.ascii_of_nat 34) EmptyString.

(** The text of the query, an f-string over [ts]. *)
Definition blocks_query (ts : Z) : string :=
  nl +:+
  "            {" +:+ nl +:+
  "                blocks(" +:+ nl +:+
  "                    first: 1, orderBy: timestamp, orderDirection: desc,"
    +:+ nl +:+
  "                    where: {timestamp_lte: " +:+ quote +:+ pretty ts
    +:+ quote +:+ "}" +:+ nl +:+
  "                ) {" +:+ nl +:+
  "                    id" +:+ nl +:+
  "                    number" +:+ nl +:+
  "                    timestamp" +:+ nl +:+
  "                }" +:+ nl +:+
  "            }" +:+ nl +:+
  "            ".

(** [int(response['blocks'][0]['number'])]. *)
Definition first_block_number (response : Json) : Result Z :=
  rbind (getitem_key response "blocks") (fun blocks =>
  rbind (getitem_index blocks 0) (fun block =>
  rbind (getitem_key block "number") (fun number =>
  py_int number))).

Definition unexpected_response (response : Json) : Exception :=
  RemoteError
    ("Got unexpected ethereum blocks subgraph response: "
     +:+ py_str response).

(** [EthereumInquirer._get_blocknumber_by_time_from_subgraph]. *)
Definition _get_blocknumber_by_time_from_subgraph (ts : Z) : M Z :=
  bind (external (CallBlocksSubgraph (blocks_query ts))
          (blocks_subgraph_query (blocks_query ts)))
    (fun response =>
       try_except (lift (first_block_number response))
         (fun e =>
            match e with
            | IndexError | KeyError => true
            | _ => false
            end)
         (fun _ => raise (unexpected_response response))).

(** ** [get_blocknumber_by_time] *)

(** [EthereumInquirer.get_blocknumber_by_time]; [with suppress(RemoteError)]
    lets a [RemoteError] of etherscan fall through to the subgraph. *)
Definition get_blocknumber_by_time (ts : Z) (etherscan : bool)
    (closest : Closest) : M Z :=
  if etherscan
  then
    fun n =>
      match external (CallEtherscanBlocknumberByTime ts closest)
              (etherscan_get_blocknumber_by_time ts closest) n with
      | (Return result, n') => (Return result, n')
      | (Raise (RemoteError _), n') =>
          _get_blocknumber_by_time_from_subgraph ts n'
      | (Raise e, n') => (Raise e, n')
      end
  else _get_blocknumber_by_time_from_subgraph ts.

(** ** [_ens_lookup] *)

(** [EthereumInquirer._ens_lookup]. *)
Definition _ens_lookup (web3 : option Web3) (name : string)
    (blockchain : SupportedBlockchain) : M (option string) :=
  match normalize_name name with
  | inl message => raise (InputError message)
  | inr normal_name =>
      bind
        (external
           (CallContract web3 ENS_MAINNET_ADDR ENS_ABI "resolver"
              [ArgBytes (normal_name_to_hash normal_name)])
           (_call_contract web3 ENS_MAINNET_ADDR ENS_ABI "resolver"
              [ArgBytes (normal_name_to_hash normal_name)]))
        (fun resolver_addr =>
           if is_none_or_zero_address resolver_addr
           then ret None
           else
             let ens_resolver_abi :=
               if bool_decide (blockchain ≠ ETHEREUM)
               then ENS_RESOLVER_ABI ++ ENS_RESOLVER_ABI_MULTICHAIN_ADDRESS
               else ENS_RESOLVER_ABI in
             let arguments :=
               if bool_decide (blockchain ≠ ETHEREUM)
               then [ArgBytes (normal_name_to_hash normal_name);
                     ArgInt (ens_coin_type blockchain)]
               else [ArgBytes (normal_name_to_hash normal_name)] in
             match deserialize_evm_address resolver_addr with
             | None => ret None
             | Some deserialized_resolver_addr =>
                 bind
                   (external
                      (CallContract web3 deserialized_resolver_addr
                         ens_resolver_abi "addr" arguments)
                      (_call_contract web3 deserialized_resolver_addr
                         ens_resolver_abi "addr" arguments))
                   (fun address =>
                      if is_none_or_zero_address address
                      then ret None
                      else if bool_decide (blockchain ≠ ETHEREUM)
                      then ret (Some (value_hex address))
                      else
                        match deserialize_evm_address address with
                        | Some checksummed => ret (Some checksummed)
                        | None => ret None
                        end)
             end)
  end.

(** The first call of an ENS lookup: the resolver of the name, asked of the
    ENS registry. *)
Definition resolver_call (web3 : option Web3) (normal_name : string)
    : Call :=
  CallContract web3 ENS_MAINNET_ADDR ENS_ABI "resolver"
    [ArgBytes (normal_name_to_hash normal_name)].

(** The second call: the address of the name, asked of its resolver, with
    the coin type of the chain for a chain other than Ethereum. *)
Definition addr_call (web3 : option Web3) (normal_name : string)
    (blockchain : SupportedBlockchain) (resolver : string) : Call :=
  if bool_decide (blockchain = ETHEREUM)
  then
    CallContract web3 resolver ENS_RESOLVER_ABI "addr"
      [ArgBytes (normal_name_to_hash normal_name)]
  else
    CallContract web3 resolver
      (ENS_RESOLVER_ABI ++ ENS_RESOLVER_ABI_MULTICHAIN_ADDRESS) "addr"
      [ArgBytes (normal_name_to_hash normal_name);
       ArgInt (ens_coin_type blockchain)].

End Inquirer.

End EthereumInquirer.

(** * A concrete network

    One instance of the collaborators of the inquirer: the state of the
    remote services counts the calls served; etherscan is unreachable for
    block numbers by time and answers for the latest block; the subgraph
    and blockcypher answer with one block; the reverse records know one
    name. *)

Module InquirerScenario.
Import EthereumInquirer.

Local Open Scope Z_scope.

(** [lst[i:i + n]] for [i] in steps of [n]. *)
Fixpoint chunks_of (fuel : nat) (lst : list string) (n : nat)
    : list (list string) :=
  match fuel, lst with
  | S fuel', _ :: _ => take n lst :: chunks_of fuel' (drop n lst) n
  | _, _ => []
  end.

Definition digit_of (c : Ascii.ascii) : option Z :=
  let code := Z.of_nat (Ascii.nat_of_ascii c) in
  if bool_decide (48 <= code <= 57) then Some (code - 48) else None.

(** The decimal numerals without sign. *)
Fixpoint read_digits (s : string) (acc : Z) : option Z :=
  match s with
  | EmptyString => Some acc
  | String c rest =>
      match digit_of c with
      | Some d => read_digits rest (10 * acc + d)
      | None => None
      end
  end.

Definition read_int (s : string) : option Z :=
  match s with
  | EmptyString => None
  | _ => read_digits s 0
  end.

Definition vitalik : string := "0xd8dA6BF26964aF9D7eEd9e03E53415D37aA96045".
Definition stranger : string := "0x0000000000000000000000000000000000000001".
Definition null_address : string :=
  "0x0000000000000000000000000000000000000000".
Definition public_resolver : string :=
  "0x4976fb03C32e5B8cfe2b6cCB31c09Ba78EBaBa41".

Definition name_of (addr : string) : string :=
  if bool_decide (addr = vitalik) then "vitalik.eth" else "".

Definition one_block : Json :=
  JDict {[ "blocks" := JList [JDict {[ "number" := JStr "16000000" ]}] ]}.

#[export] Instance network : Network := {|
  Remote := nat;
  Web3 := unit;
  Value := option string;
  AbiEntry := string;
  get_chunks := fun lst n => chunks_of (length lst) lst n;
  int_of_str := read_int;
  int_of_float := fun _ => Raise ValueError;
  py_str := fun _ => "{...}";
  normalize_name :=
    fun name =>
      if bool_decide (name = "") then inl "empty name" else inr name;
  normal_name_to_hash := fun _ => [x00];
  is_none_or_zero_address :=
    fun v =>
      match v with
      | None => true
      | Some a => bool_decide (a = null_address)
      end;
  deserialize_evm_address := fun v => v;
  value_hex := fun v => default "" v;
  ens_coin_type := fun _ => 0;
  ENS_MAINNET_ADDR := "0x00000000000C2E074eC69A0dFb2997BA6C7d2e1e";
  ENS_ABI := ["resolver"];
  ENS_RESOLVER_ABI := ["addr"];
  ENS_RESOLVER_ABI_MULTICHAIN_ADDRESS := ["addr(bytes32,uint256)"];
  ens_reverse_records_getNames :=
    fun chunk served => (Return (name_of <$> chunk), S served);
  etherscan_get_blocknumber_by_time :=
    fun _ _ served => (Raise (RemoteError "etherscan is down"), S served);
  etherscan_get_latest_block_number :=
    fun served => (Return 17000000, S served);
  blocks_subgraph_query := fun _ served => (Return one_block, S served);
  request_get_dict :=
    fun _ served => (Return {[ "height" := JInt 16999999 ]}, S served);
  _call_contract :=
    fun _ _ _ method_name _ served =>
      if bool_decide (method_name = "resolver")
      then (Return (Some public_resolver), S served)
      else (Return (Some vitalik), S served)
|}.

(** A node that has made no call yet. *)
Definition fresh : Node := {| remote := 0%nat; calls := [] |}.

(** The mapping and the node a lookup of the two addresses leaves. *)
Definition two_names : gmap string (option string) :=
  <[stranger := None]> (<[vitalik := Some "vitalik.eth"]> ∅).

Definition after_lookup : Node :=
  {| remote := 1%nat; calls := [CallGetNames [vitalik; stranger]] |}.

End InquirerScenario.

(** * More of the concrete environment *)

Module ScenarioMore.
Import Scenario.

Local Open Scope Z_scope.

(** Alice's spend of 5 to the pool, already classified as a deposit. *)
Definition deposited_world : World :=
  world_of [placeholder DEPOSIT "CVX" 5 (Some pool) (Some alice)].

(** A registry of the five fixed contracts and one virtual reward pool. *)
#[export] Instance registry_constants : RegistryConstants := {|
  BOOSTER := booster;
  CVX_LOCKER := topic_address (address_topic xd1);
  CVX_LOCKER_V2 := topic_address (address_topic x72);
  CVX_REWARDS := topic_address (address_topic xcf);
  CVXCRV_REWARDS := topic_address (address_topic x3f);
  CONVEX_VIRTUAL_REWARDS := [topic_address (address_topic x0d)]
|}.

End ScenarioMore.

(** * Facts about the decoder rule *)

Section DecoderFacts.
Context `{Collaborators}.

Lemma decode_convex_event_run context amount_raw interacted_address topic0
    event w :
  topics (DecoderContext.tx_log context) !! 0%nat = Some topic0 ->
  exists w',
    decode_convex_event context amount_raw interacted_address event w
      = (Returned tt, w')
    /\ heap w' event
       = decoded context amount_raw interacted_address topic0 (heap w event)
    /\ (forall r, r <> event -> heap w' r = heap w r)
    /\ msg_aggregator w'
       = msg_aggregator w ++ notified event (heap w event).
Proof.
  intros Htopic.
  unfold decode_convex_event, decoded, notified, bind, attr, setattr, ret,
    lift, index, notify_user.
  rewrite Htopic. cbn [compose].
  destruct (resolve_to_crypto_asset _) as [err|crypto_asset].
  { eexists; split; [reflexivity|]. cbn. rewrite ?app_nil_r. auto. }
  destruct (skip_guard _ _ _ _ _ _).
  { eexists; split; [reflexivity|]. cbn. rewrite ?app_nil_r. auto. }
  destruct (heap w event) as [ty sub a b ad ll n c] eqn:Hev.
  destruct ty, sub;
    repeat first
      [ progress (cbn; rewrite ?Hev; cbn)
      | match goal with
        | |- context [bool_decide ?P] =>
            destruct (bool_decide_reflect P); try congruence
        end ];
    (eexists; split; [reflexivity|]; cbn;
     rewrite ?fn_lookup_insert, ?Hev, ?app_nil_r;
     repeat split; auto;
     try (intros r Hr; rewrite ?fn_lookup_insert_ne by auto; reflexivity)).
Qed.

Lemma decoded_asset context amount_raw interacted_address topic0 e :
  HistoryEvent.asset
    (decoded context amount_raw interacted_address topic0 e)
  = HistoryEvent.asset e.
Proof.
  unfold decoded.
  destruct (resolve_to_crypto_asset _) as [err|crypto_asset]; [reflexivity|].
  destruct (skip_guard _ _ _ _ _ _); [reflexivity|].
  destruct e as [ty sub a b ad ll n c]; cbn.
  destruct ty, sub; repeat case_bool_decide; reflexivity.
Qed.

(** A second pass over the same event changes nothing more: every
    reclassification leaves the states [(SPEND, NONE)] and
    [(RECEIVE, NONE)]. *)
Lemma decoded_idempotent context amount_raw interacted_address topic0 e :
  decoded context amount_raw interacted_address topic0
    (decoded context amount_raw interacted_address topic0 e)
  = decoded context amount_raw interacted_address topic0 e.
Proof.
  destruct e as [ty sub a b ad ll n c].
  unfold decoded; cbn.
  destruct (resolve_to_crypto_asset a) as [err|crypto_asset] eqn:Hres;
    cbn; rewrite ?Hres; [reflexivity|].
  destruct (skip_guard _ _ _ _ _ _) eqn:Hskip; cbn; rewrite ?Hres, ?Hskip;
    [reflexivity|].
  destruct ty, sub; cbn; rewrite ?Hres, ?Hskip; try reflexivity;
    repeat (case_bool_decide; cbn; rewrite ?Hres, ?Hskip; cbn);
    reflexivity.
Qed.

Lemma notified_decoded context amount_raw interacted_address topic0 r e :
  notified r (decoded context amount_raw interacted_address topic0 e)
  = notified r e.
Proof. unfold notified. by rewrite decoded_asset. Qed.

(** The loop of [_decode_convex_events] over a list of references, which may
    name the same event object more than once. *)
Lemma for_each_decode_run context amount_raw interacted_address topic0
    events w :
  topics (DecoderContext.tx_log context) !! 0%nat = Some topic0 ->
  exists w',
    for_each events
      (decode_convex_event context amount_raw interacted_address) w
      = (Returned tt, w')
    /\ (forall r, r ∈ events ->
          heap w' r
          = decoded context amount_raw interacted_address topic0 (heap w r))
    /\ (forall r, r ∉ events -> heap w' r = heap w r)
    /\ msg_aggregator w'
       = msg_aggregator w ++ (events ≫= fun r => notified r (heap w r)).
Proof.
  intros Htopic. revert w.
  induction events as [|x xs IH]; intros w.
  { exists w. cbn. rewrite app_nil_r.
    repeat split; auto. intros r Hr. by apply elem_of_nil in Hr. }
  destruct (decode_convex_event_run context amount_raw interacted_address
              topic0 x w Htopic) as (w1 & Hrun1 & Hx & Hother & Hmsg1).
  destruct (IH w1) as (w' & Hrun & Hin & Hout & Hmsg).
  exists w'. cbn [for_each]. unfold bind at 1. rewrite Hrun1.
  split; [exact Hrun|]. split; [|split].
  - intros r Hr. destruct (decide (r ∈ xs)) as [Hrxs|Hrxs].
    + rewrite (Hin r Hrxs). destruct (decide (r = x)) as [->|Hne].
      * rewrite Hx. apply decoded_idempotent.
      * by rewrite (Hother r Hne).
    + rewrite (Hout r Hrxs). apply elem_of_cons in Hr as [->|Hr]; [exact Hx|].
      contradiction.
  - intros r Hr. apply not_elem_of_cons in Hr as [Hne Hrxs].
    rewrite (Hout r Hrxs). by apply Hother.
  - rewrite Hmsg, Hmsg1, <- app_assoc. f_equal. cbn. f_equal.
    clear -Hx Hother.
    induction xs as [|y ys IHys]; [reflexivity|]. cbn. f_equal; [|exact IHys].
    destruct (decide (y = x)) as [->|Hne].
    + rewrite Hx. apply notified_decoded.
    + by rewrite (Hother y Hne).
Qed.

End DecoderFacts.

(** Closes a goal [assignments e = {| ... |}] from the hypotheses on the
    fields of [e]. *)
Ltac finish_record :=
  unfold set_notes, set_counterparty, set_event_subtype, set_event_type;
  cbn;
  repeat match goal with
    | Hfield : _ = _ |- _ => rewrite Hfield
    end;
  reflexivity.

Section RuleFacts.
Context `{Collaborators}.

Lemma topics_second_first (log : EvmTxReceiptLog) topic1 :
  topics log !! 1%nat = Some topic1 ->
  exists topic0, topics log !! 0%nat = Some topic0.
Proof.
  intros Htopic. destruct (topics log) as [|topic0 rest]; [discriminate|].
  by exists topic0.
Qed.

(** The rule on a log with two topics: it returns, and every listed event
    is left as one pass of the loop leaves it. *)
Lemma _decode_convex_events_run context w topic0 topic1 :
  topics (DecoderContext.tx_log context) !! 0%nat = Some topic0 ->
  topics (DecoderContext.tx_log context) !! 1%nat = Some topic1 ->
  exists w',
    _decode_convex_events context w = (Returned DEFAULT_DECODING_OUTPUT, w')
    /\ (forall r, r ∈ DecoderContext.decoded_events context ->
          heap w' r
          = decoded context (raw_amount (DecoderContext.tx_log context))
              (hex_or_bytes_to_address topic1) topic0 (heap w r))
    /\ (forall r, r ∉ DecoderContext.decoded_events context ->
          heap w' r = heap w r)
    /\ msg_aggregator w'
       = msg_aggregator w
         ++ (DecoderContext.decoded_events context
             ≫= fun r => notified r (heap w r)).
Proof.
  intros Htopic0 Htopic1.
  destruct (for_each_decode_run context
              (raw_amount (DecoderContext.tx_log context))
              (hex_or_bytes_to_address topic1) topic0
              (DecoderContext.decoded_events context) w Htopic0)
    as (w' & Hrun & Hin & Hout & Hmsg).
  exists w'. split; [|auto].
  unfold _decode_convex_events, bind, lift, index, ret.
  rewrite Htopic1. fold (raw_amount (DecoderContext.tx_log context)).
  unfold raw_amount in *. by rewrite Hrun.
Qed.

(** The rule on a log without a second topic: [topics[1]] raises before
    any event is read. *)
Lemma _decode_convex_events_short context w :
  topics (DecoderContext.tx_log context) !! 1%nat = None ->
  _decode_convex_events context w = (Raised IndexError, w).
Proof.
  intros Htopic. unfold _decode_convex_events, bind, lift, index.
  by rewrite Htopic.
Qed.

(** The first disjunct of the guard never holds: its last link compares a
    string with the singleton [False]. *)
Lemma skip_guard_amount_only location_label sender interacted_address
    event_address balance_amount amount :
  skip_guard location_label sender interacted_address event_address
    balance_amount amount
  = bool_decide (event_address ≠ Some ZERO_ADDRESS)
    && bool_decide (balance_amount ≠ amount).
Proof.
  unfold skip_guard. cbn [py_is_False]. by rewrite andb_false_r.
Qed.

(** One pass leaves an event alone when its address is not the zero address
    and its amount is not the normalised amount of the log. *)
Lemma decoded_amount_mismatch context interacted_address topic0 e :
  HistoryEvent.address e ≠ Some ZERO_ADDRESS ->
  (forall crypto_asset,
     resolve_to_crypto_asset (HistoryEvent.asset e) = inr crypto_asset ->
     Balance.amount (HistoryEvent.balance e)
     ≠ asset_normalized_value
         (raw_amount (DecoderContext.tx_log context)) crypto_asset) ->
  decoded context (raw_amount (DecoderContext.tx_log context))
    interacted_address topic0 e = e.
Proof.
  intros Haddress Hamount. unfold decoded.
  destruct (resolve_to_crypto_asset _) as [err|crypto_asset];
    [reflexivity|].
  rewrite skip_guard_amount_only.
  rewrite (bool_decide_eq_true_2 _ Haddress).
  by rewrite (bool_decide_eq_true_2 _ (Hamount crypto_asset eq_refl)).
Qed.

(** One pass leaves an event that already has a subtype as it is. *)
Lemma decoded_classified context amount_raw interacted_address topic0 e :
  HistoryEvent.event_subtype e ≠ NONE ->
  decoded context amount_raw interacted_address topic0 e = e.
Proof.
  intros Hsubtype. unfold decoded.
  destruct (resolve_to_crypto_asset _) as [err|crypto_asset];
    [reflexivity|].
  destruct (skip_guard _ _ _ _ _ _); [reflexivity|].
  destruct (HistoryEvent.event_type e), (HistoryEvent.event_subtype e);
    done.
Qed.

(** One pass leaves an event whose asset does not resolve as it is. *)
Lemma decoded_unresolved context amount_raw interacted_address topic0 e err :
  resolve_to_crypto_asset (HistoryEvent.asset e) = inl err ->
  decoded context amount_raw interacted_address topic0 e = e.
Proof. intros Hresolve. unfold decoded. by rewrite Hresolve. Qed.

(** The rule leaves alone an event that one pass of the loop leaves alone,
    however the call ends. *)
Lemma unmutated_when_pass_is_identity context w r :
  (forall interacted_address topic0,
     decoded context (raw_amount (DecoderContext.tx_log context))
       interacted_address topic0 (heap w r) = heap w r) ->
  heap (snd (_decode_convex_events context w)) r = heap w r.
Proof.
  intros Hpass.
  destruct (topics (DecoderContext.tx_log context) !! 1%nat)
    as [topic1|] eqn:Htopic1.
  - destruct (topics_second_first _ _ Htopic1) as [topic0 Htopic0].
    destruct (_decode_convex_events_run context w topic0 topic1
                Htopic0 Htopic1) as (w' & Hrun & Hin & Hout & _).
    rewrite Hrun. cbn [snd].
    destruct (decide (r ∈ DecoderContext.decoded_events context))
      as [Hr|Hr]; [|by apply Hout].
    rewrite (Hin r Hr). apply Hpass.
  - by rewrite (_decode_convex_events_short context w Htopic1).
Qed.

(** C2 -- amount correlation.  An event whose address is not the zero
    address and whose balance amount differs from the raw amount of the log
    (the first 32 bytes of its data, big-endian) normalised by the event's
    asset is left unmutated by [_decode_convex_events], whatever else the
    context holds and however the call ends. *)
Theorem amount_correlation context w r :
  HistoryEvent.address (heap w r) ≠ Some ZERO_ADDRESS ->
  (forall crypto_asset,
     resolve_to_crypto_asset (HistoryEvent.asset (heap w r))
     = inr crypto_asset ->
     Balance.amount (HistoryEvent.balance (heap w r))
     ≠ asset_normalized_value
         (hex_or_bytes_to_int
            (take 32 (data (DecoderContext.tx_log context))))
         crypto_asset) ->
  heap (snd (_decode_convex_events context w)) r = heap w r.
Proof.
  intros Haddress Hamount.
  apply unmutated_when_pass_is_identity.
  intros interacted_address topic0.
  apply decoded_amount_mismatch; [exact Haddress|].
  intros crypto_asset Hresolve. unfold raw_amount.
  by apply Hamount.
Qed.

(** The same, read the other way round: an event the rule has mutated
    satisfies the amount correlation. *)
Corollary mutated_amount_match context w r :
  heap (snd (_decode_convex_events context w)) r ≠ heap w r ->
  amount_match context (heap w r).
Proof.
  intros Hmutated. unfold amount_match.
  destruct (decide (HistoryEvent.address (heap w r) = Some ZERO_ADDRESS))
    as [Hzero|Hzero]; [by left|right].
  destruct (resolve_to_crypto_asset (HistoryEvent.asset (heap w r)))
    as [err|crypto_asset] eqn:Hresolve.
  { exfalso. apply Hmutated. apply unmutated_when_pass_is_identity.
    intros interacted_address topic0.
    by apply decoded_unresolved with err. }
  exists crypto_asset. split; [reflexivity|].
  destruct (decide (Balance.amount (HistoryEvent.balance (heap w r))
                    = asset_normalized_value
                        (raw_amount (DecoderContext.tx_log context))
                        crypto_asset)) as [Heq|Hne]; [exact Heq|].
  exfalso. apply Hmutated. apply unmutated_when_pass_is_identity.
  intros interacted_address topic0.
  apply decoded_amount_mismatch; [exact Hzero|].
  intros ca Hca. rewrite Hresolve in Hca. by injection Hca as <-.
Qed.

Lemma string_app_assoc (s1 s2 s3 : string) :
  (s1 +:+ s2) +:+ s3 = s1 +:+ s2 +:+ s3.
Proof.
  induction s1 as [|a s1 IH]; [reflexivity|].
  change (String a ((s1 +:+ s2) +:+ s3) = String a (s1 +:+ s2 +:+ s3)).
  by rewrite IH.
Qed.

(** The note of a pool names the pool; the note of any other emitter names
    the protocol only. *)
Lemma convex_note_pool verb balance_amount crypto_asset tail log_address
    pool :
  CONVEX_POOLS !! log_address = Some pool ->
  convex_note verb balance_amount crypto_asset tail log_address
  = verb +:+ " " +:+ FVal_str balance_amount +:+ " " +:+
    symbol crypto_asset +:+ " " +:+ tail +:+ " convex " +:+ pool +:+ " pool".
Proof. intros Hpool. unfold convex_note. by rewrite Hpool. Qed.

Lemma convex_note_generic verb balance_amount crypto_asset tail log_address :
  CONVEX_POOLS !! log_address = None ->
  convex_note verb balance_amount crypto_asset tail log_address
  = verb +:+ " " +:+ FVal_str balance_amount +:+ " " +:+
    symbol crypto_asset +:+ " " +:+ tail +:+ " convex".
Proof. intros Hpool. unfold convex_note. by rewrite Hpool. Qed.

Lemma convex_note_mentions_reward verb balance_amount crypto_asset
    log_address :
  mentions "reward"
    (convex_note verb balance_amount crypto_asset "reward from" log_address).
Proof.
  unfold mentions, convex_note.
  destruct (CONVEX_POOLS !! log_address) as [pool|].
  - exists (verb +:+ " " +:+ FVal_str balance_amount +:+ " " +:+
            symbol crypto_asset +:+ " "),
           (" from" +:+ " convex " +:+ pool +:+ " pool").
    by rewrite !string_app_assoc.
  - exists (verb +:+ " " +:+ FVal_str balance_amount +:+ " " +:+
            symbol crypto_asset +:+ " "),
           (" from" +:+ " convex").
    by rewrite !string_app_assoc.
Qed.

(** An event that satisfies the amount correlation passes the guard. *)
Lemma skip_guard_pass context e crypto_asset location_label sender
    interacted_address :
  amount_match context e ->
  resolve_to_crypto_asset (HistoryEvent.asset e) = inr crypto_asset ->
  skip_guard location_label sender interacted_address
    (HistoryEvent.address e) (Balance.amount (HistoryEvent.balance e))
    (asset_normalized_value (raw_amount (DecoderContext.tx_log context))
       crypto_asset)
  = false.
Proof.
  intros Hamount Hresolve. rewrite skip_guard_amount_only.
  destruct Hamount as [Hzero|(ca & Hca & Heq)].
  - rewrite (bool_decide_eq_false_2 _); [reflexivity|]. by intros Hne.
  - rewrite Hresolve in Hca. injection Hca as <-.
    rewrite (bool_decide_eq_false_2 (_ ≠ asset_normalized_value _ _));
      [apply andb_false_r|]. by intros Hne.
Qed.

(** The rule on an event that is listed, resolves and has the acting party
    of the log. *)
Lemma _decode_convex_events_listed context w r :
  r ∈ DecoderContext.decoded_events context ->
  acting_party_match context (heap w r) ->
  exists w' topic0 topic1,
    topics (DecoderContext.tx_log context) !! 0%nat = Some topic0
    /\ topics (DecoderContext.tx_log context) !! 1%nat = Some topic1
    /\ _decode_convex_events context w
       = (Returned DEFAULT_DECODING_OUTPUT, w')
    /\ heap w' r
       = decoded context (raw_amount (DecoderContext.tx_log context))
           (hex_or_bytes_to_address topic1) topic0 (heap w r).
Proof.
  intros Hr (topic1 & Htopic1 & _).
  destruct (topics_second_first _ _ Htopic1) as [topic0 Htopic0].
  destruct (_decode_convex_events_run context w topic0 topic1
              Htopic0 Htopic1) as (w' & Hrun & Hin & _).
  exists w', topic0, topic1. auto.
Qed.



(** The rule never raises the exceptions of the asset resolver. *)
Lemma _decode_convex_events_catches context w err :
  fst (_decode_convex_events context w) ≠ Raised (AssetException err).
Proof.
  destruct (topics (DecoderContext.tx_log context) !! 1%nat)
    as [topic1|] eqn:Htopic1.
  - destruct (topics_second_first _ _ Htopic1) as [topic0 Htopic0].
    destruct (_decode_convex_events_run context w topic0 topic1
                Htopic0 Htopic1) as (w' & Hrun & _).
    by rewrite Hrun.
  - by rewrite (_decode_convex_events_short context w Htopic1).
Qed.

(** C9 -- unclassifiable-asset handling.  For a listed event whose asset
    resolution raises [UnknownAsset] or [WrongAssetType]:
    [_decode_convex_events] never lets that exception out and leaves the
    event unmutated; and on a log that has the second topic the rule reads,
    it returns its default output, has notified the user about that event
    with the Convex counterparty, and leaves every event as the same call
    leaves it when the unresolvable event is taken out of the list, so the
    other events of the transaction are classified all the same. *)
Theorem unclassifiable_asset_skipped context w r err :
  r ∈ DecoderContext.decoded_events context ->
  resolve_to_crypto_asset (HistoryEvent.asset (heap w r)) = inl err ->
  (forall err',
     fst (_decode_convex_events context w) ≠ Raised (AssetException err'))
  /\ heap (snd (_decode_convex_events context w)) r = heap w r
  /\ (is_Some (topics (DecoderContext.tx_log context) !! 1%nat) ->
      exists w' w'',
        _decode_convex_events context w
        = (Returned DEFAULT_DECODING_OUTPUT, w')
        /\ {| about_event := r; about_counterparty := CPT_CONVEX |}
           ∈ msg_aggregator w'
        /\ _decode_convex_events (without r context) w
           = (Returned DEFAULT_DECODING_OUTPUT, w'')
        /\ forall r', heap w' r' = heap w'' r').
Proof.
  intros Hr Hresolve. split; [|split].
  - intros err'. apply _decode_convex_events_catches.
  - apply unmutated_when_pass_is_identity.
    intros interacted_address topic0.
    by apply decoded_unresolved with err.
  - intros [topic1 Htopic1].
    destruct (topics_second_first _ _ Htopic1) as [topic0 Htopic0].
    destruct (_decode_convex_events_run context w topic0 topic1
                Htopic0 Htopic1) as (w' & Hrun & Hin & Hout & Hmsg).
    destruct (_decode_convex_events_run (without r context) w topic0 topic1
                Htopic0 Htopic1) as (w'' & Hrun' & Hin' & Hout' & _).
    exists w', w''. split; [exact Hrun|]. split; [|split; [exact Hrun'|]].
    + rewrite Hmsg. apply elem_of_app. right.
      apply list_elem_of_bind. exists r. split; [|exact Hr].
      unfold notified. rewrite Hresolve. by apply list_elem_of_singleton.
    + intros r'. cbn in Hin', Hout'.
      destruct (decide (r' = r)) as [->|Hne].
      * rewrite (Hin r Hr), (decoded_unresolved _ _ _ _ _ _ Hresolve).
        symmetry. apply Hout'. rewrite list_elem_of_filter. tauto.
      * destruct (decide (r' ∈ DecoderContext.decoded_events context))
          as [Hr'|Hr'].
        -- rewrite (Hin r' Hr'). symmetry. apply Hin'.
           by apply list_elem_of_filter.
        -- rewrite (Hout r' Hr'). symmetry. apply Hout'.
           rewrite list_elem_of_filter. tauto.
Qed.

End RuleFacts.

(** * Facts about the enrichment rule *)

Section EnrichmentFacts.
Context `{Collaborators}.

Lemma enrichment_conditions_dec context e :
  Decision (enrichment_conditions context e).
Proof.
  unfold enrichment_conditions.
  destruct (topics (EnricherContext.tx_log context) !! 1%nat)
    as [topic1|] eqn:Htopic1.
  - destruct (decide (topic1 ∈ CONVEX_ABRAS_HEX)) as [Hin|Hout].
    + assert (Decision (exists t, Some topic1 = Some t
                                  /\ t ∈ CONVEX_ABRAS_HEX))
        by (left; eauto).
      apply _.
    + assert (Decision (exists t, Some topic1 = Some t
                                  /\ t ∈ CONVEX_ABRAS_HEX)).
      { right. intros (t & [= <-] & Ht). contradiction. }
      apply _.
  - right. intros (_ & (t & Ht & _) & _). discriminate.
Defined.

(** The rule when all four conditions hold and the asset resolves. *)
Lemma _maybe_enrich_convex_transfers_match context w crypto_asset :
  enrichment_conditions context (heap w (EnricherContext.event context)) ->
  resolve_to_crypto_asset
    (HistoryEvent.asset (heap w (EnricherContext.event context)))
  = inr crypto_asset ->
  exists w',
    _maybe_enrich_convex_transfers context w
    = (Returned DEFAULT_ENRICHMENT_OUTPUT, w')
    /\ heap w' (EnricherContext.event context)
       = enriched context crypto_asset
           (heap w (EnricherContext.event context))
    /\ (forall r, r ≠ EnricherContext.event context -> heap w' r = heap w r)
    /\ msg_aggregator w' = msg_aggregator w.
Proof.
  intros (Htopic0 & (topic1 & Htopic1 & Habra) & Hlabel & Htype & Hsubtype)
    Hresolve.
  unfold _maybe_enrich_convex_transfers, bind, lift, index, attr, ret, raise.
  rewrite Htopic0, Htopic1. cbn.
  rewrite (bool_decide_eq_true_2 _ eq_refl). cbn.
  rewrite (bool_decide_eq_true_2 _ Habra). cbn.
  rewrite (bool_decide_eq_true_2 _ Hlabel). cbn.
  rewrite (bool_decide_eq_true_2 _ Htype). cbn.
  rewrite (bool_decide_eq_true_2 _ Hsubtype). cbn.
  rewrite Hresolve. unfold setattr. cbn.
  eexists. split; [reflexivity|]. cbn.
  rewrite !fn_lookup_insert. split; [|split; [|reflexivity]].
  - unfold enriched. finish_record.
  - intros r Hr. by rewrite !fn_lookup_insert_ne.
Qed.

(** The rule when all four conditions hold and the asset does not resolve:
    the exception leaves the rule, raised before any assignment. *)
Lemma _maybe_enrich_convex_transfers_raise context w err :
  enrichment_conditions context (heap w (EnricherContext.event context)) ->
  resolve_to_crypto_asset
    (HistoryEvent.asset (heap w (EnricherContext.event context)))
  = inl err ->
  _maybe_enrich_convex_transfers context w = (Raised (AssetException err), w).
Proof.
  intros (Htopic0 & (topic1 & Htopic1 & Habra) & Hlabel & Htype & Hsubtype)
    Hresolve.
  unfold _maybe_enrich_convex_transfers, bind, lift, index, attr, ret, raise.
  rewrite Htopic0, Htopic1. cbn.
  rewrite (bool_decide_eq_true_2 _ eq_refl). cbn.
  rewrite (bool_decide_eq_true_2 _ Habra). cbn.
  rewrite (bool_decide_eq_true_2 _ Hlabel). cbn.
  rewrite (bool_decide_eq_true_2 _ Htype). cbn.
  rewrite (bool_decide_eq_true_2 _ Hsubtype). cbn.
  by rewrite Hresolve.
Qed.

(** The rule when a condition fails, on a log that has the topics the rule
    reads: the default output, and the world as it was. *)
Lemma _maybe_enrich_convex_transfers_no_match context w topic0 :
  topics (EnricherContext.tx_log context) !! 0%nat = Some topic0 ->
  (topic0 = ERC20_OR_ERC721_TRANSFER ->
   is_Some (topics (EnricherContext.tx_log context) !! 1%nat)) ->
  ¬ enrichment_conditions context (heap w (EnricherContext.event context)) ->
  _maybe_enrich_convex_transfers context w
  = (Returned DEFAULT_ENRICHMENT_OUTPUT, w).
Proof.
  intros Htopic0 Htopic1 Hno.
  unfold _maybe_enrich_convex_transfers, bind, lift, index, attr, ret, raise.
  rewrite Htopic0. cbn.
  case_bool_decide as Hsig; cbn; [|reflexivity].
  destruct (Htopic1 Hsig) as [topic1 Htopic1']. rewrite Htopic1'. cbn.
  case_bool_decide as Habra; cbn; [|reflexivity].
  case_bool_decide as Hlabel; cbn; [|reflexivity].
  case_bool_decide as Htype; cbn; [|reflexivity].
  case_bool_decide as Hsubtype; cbn; [|reflexivity].
  exfalso. apply Hno. unfold enrichment_conditions.
  subst topic0. eauto 10.
Qed.

(** C10 -- the enrichment rule does not catch asset-resolution failures.
    When the four conditions hold and the resolution of the event's asset
    raises [UnknownAsset] or [WrongAssetType], the rule raises that
    exception to its caller, and the world it leaves is the world it was
    given: the event's subtype, notes and counterparty, like everything
    else, are untouched. *)
Theorem enrichment_raises_unresolved context w err :
  enrichment_conditions context (heap w (EnricherContext.event context)) ->
  resolve_to_crypto_asset
    (HistoryEvent.asset (heap w (EnricherContext.event context)))
  = inl err ->
  (err = UnknownAsset \/ err = WrongAssetType)
  /\ _maybe_enrich_convex_transfers context w
     = (Raised (AssetException err), w).
Proof.
  intros Hconditions Hresolve. split.
  - destruct err; auto.
  - by apply _maybe_enrich_convex_transfers_raise.
Qed.

(** C8, amended -- the contract of the enrichment rule, on a log that has
    the topics the rule reads (a first one, and a second one when the first
    is the transfer signature).  When the four conditions hold and the asset
    of the event resolves, the rule returns its default output and has
    reclassified the event: subtype [REWARD], counterparty tag, reward note,
    every other field and every other event as they were.  When a condition
    fails it returns the default output and leaves the world as it was.  So
    the event is mutated if and only if the four conditions hold and the
    asset resolves. *)
Theorem enrichment_contract context w topic0 :
  topics (EnricherContext.tx_log context) !! 0%nat = Some topic0 ->
  (topic0 = ERC20_OR_ERC721_TRANSFER ->
   is_Some (topics (EnricherContext.tx_log context) !! 1%nat)) ->
  let event := EnricherContext.event context in
  let run := _maybe_enrich_convex_transfers context w in
  (forall crypto_asset,
     enrichment_conditions context (heap w event) ->
     resolve_to_crypto_asset (HistoryEvent.asset (heap w event))
     = inr crypto_asset ->
     fst run = Returned DEFAULT_ENRICHMENT_OUTPUT
     /\ heap (snd run) event = enriched context crypto_asset (heap w event)
     /\ mentions "reward"
          (default "" (HistoryEvent.notes (heap (snd run) event)))
     /\ (forall r, r ≠ event -> heap (snd run) r = heap w r)
     /\ msg_aggregator (snd run) = msg_aggregator w)
  /\ (¬ enrichment_conditions context (heap w event) ->
      run = (Returned DEFAULT_ENRICHMENT_OUTPUT, w))
  /\ (heap (snd run) event ≠ heap w event <->
      enrichment_conditions context (heap w event)
      /\ exists crypto_asset,
           resolve_to_crypto_asset (HistoryEvent.asset (heap w event))
           = inr crypto_asset).
Proof.
  intros Htopic0 Htopic1 event run. split; [|split].
  - intros crypto_asset Hconditions Hresolve.
    destruct (_maybe_enrich_convex_transfers_match context w crypto_asset
                Hconditions Hresolve) as (w' & Hrun & Hevent & Hother & Hmsg).
    subst run. rewrite Hrun. cbn [fst snd]. fold event in Hevent.
    rewrite Hevent. repeat split; auto.
    cbn. apply convex_note_mentions_reward.
  - intros Hno.
    by apply _maybe_enrich_convex_transfers_no_match with topic0.
  - split.
    + intros Hmutated.
      destruct (enrichment_conditions_dec context (heap w event))
        as [Hconditions|Hno].
      * split; [exact Hconditions|].
        destruct (resolve_to_crypto_asset (HistoryEvent.asset (heap w event)))
          as [err|crypto_asset] eqn:Hresolve; [|by exists crypto_asset].
        exfalso. apply Hmutated. subst run.
        by rewrite (_maybe_enrich_convex_transfers_raise context w err
                      Hconditions Hresolve).
      * exfalso. apply Hmutated. subst run.
        by rewrite (_maybe_enrich_convex_transfers_no_match context w topic0
                      Htopic0 Htopic1 Hno).
    + intros (Hconditions & crypto_asset & Hresolve).
      destruct (_maybe_enrich_convex_transfers_match context w crypto_asset
                  Hconditions Hresolve) as (w' & Hrun & Hevent & _).
      subst run. rewrite Hrun. cbn [snd]. fold event in Hevent.
      rewrite Hevent. destruct Hconditions as (_ & _ & _ & _ & Hsubtype).
      intros Heq. apply (f_equal HistoryEvent.event_subtype) in Heq.
      cbn in Heq. congruence.
Qed.

End EnrichmentFacts.

(** * Facts about the data-migration manager *)

Module DataMigrationFacts.
Import DataMigrationManager.

Local Open Scope nat_scope.

Section ManagerFacts.
Context {DB : Type}.
Implicit Types (selected pre post : list (MigrationRecord DB)).
Implicit Types (rotki : Rotki DB).

#[local] Instance version_le_total : Total (@version_le DB).
Proof. intros r1 r2. unfold version_le. lia. Qed.

#[local] Instance version_le_transitive : Transitive (@version_le DB).
Proof. intros r1 r2 r3. unfold version_le. lia. Qed.

Lemma select_sorted (ml : list (MigrationRecord DB)) m :
  StronglySorted version_le (select ml m).
Proof. apply StronglySorted_merge_sort; apply _. Qed.

Lemma select_permutation (ml : list (MigrationRecord DB)) m :
  select ml m ≡ₚ filter (unapplied m) ml.
Proof. apply merge_sort_Permutation. Qed.

Lemma select_unapplied (ml : list (MigrationRecord DB)) m record :
  record ∈ select ml m -> unapplied m record /\ record ∈ ml.
Proof.
  rewrite select_permutation. apply list_elem_of_filter.
Qed.

Lemma marker_after_cons v vs (m : option nat) :
  marker_after (v :: vs) m = marker_after vs (Some v).
Proof. unfold marker_after. rewrite last_cons. by destruct (last vs). Qed.

(** A run in which every selected function returns. *)
Lemma run_migrations_complete selected rotki :
  all_complete selected (db rotki) = true ->
  run_migrations selected rotki
  = {| last_data_migration :=
         marker_after (version <$> selected) (last_data_migration rotki);
       db := db_after selected (db rotki);
       errors := errors rotki;
       invoked := invoked rotki ++ (version <$> selected) |}.
Proof.
  revert rotki. induction selected as [|record rest IH]; intros rotki Hall.
  { destruct rotki. cbn. by rewrite app_nil_r. }
  cbn in Hall |- *.
  destruct (function record (db rotki)) as [[|message] d'] eqn:Hrecord;
    [|discriminate].
  rewrite IH by exact Hall. cbn [last_data_migration db errors invoked].
  by rewrite marker_after_cons, <- app_assoc.
Qed.

(** A run whose first records return and whose next record raises. *)
Lemma run_migrations_failure pre record post rotki message d' :
  all_complete pre (db rotki) = true ->
  function record (db_after pre (db rotki)) = (Raises message, d') ->
  run_migrations (pre ++ record :: post) rotki
  = {| last_data_migration :=
         marker_after (version <$> pre) (last_data_migration rotki);
       db := d';
       errors := errors rotki ++ [failure_message (version record) message];
       invoked := invoked rotki ++ (version <$> pre) ++ [version record] |}.
Proof.
  revert rotki. induction pre as [|first pre IH]; intros rotki Hall Hraise.
  { cbn in Hraise |- *. by rewrite Hraise. }
  cbn in Hall, Hraise |- *.
  destruct (function first (db rotki)) as [[|message'] d''] eqn:Hfirst;
    [|discriminate].
  rewrite (IH {| last_data_migration := Some (version first);
                 db := d'';
                 errors := errors rotki;
                 invoked := invoked rotki ++ [version first] |} Hall Hraise).
  cbn [last_data_migration db errors invoked].
  by rewrite marker_after_cons, <- !app_assoc.
Qed.

(** The last of a sorted selection has the highest version. *)
Lemma sorted_last_max selected :
  StronglySorted version_le selected ->
  selected ≠ [] ->
  last (version <$> selected) = Some (max_list (version <$> selected)).
Proof.
  induction 1 as [|record rest Hsorted IH Hhead]; [done|]. intros _.
  destruct rest as [|record' rest'].
  { cbn. f_equal. lia. }
  change (last (version <$> record :: record' :: rest'))
    with (last (version <$> record' :: rest')).
  rewrite IH by done. f_equal.
  change (max_list (version <$> record :: record' :: rest'))
    with (version record `max` max_list (version <$> record' :: rest')).
  apply Forall_cons in Hhead as [Hle _]. unfold version_le in Hle.
  cbn. lia.
Qed.

(** When a migration is selected the call runs the selection. *)
Lemma maybe_migrate_data_selected ml LAST rotki :
  select ml (last_data_migration rotki) ≠ [] ->
  maybe_migrate_data ml LAST rotki
  = run_migrations (select ml (last_data_migration rotki)) rotki.
Proof.
  intros Hselected. unfold maybe_migrate_data.
  destruct (select ml (last_data_migration rotki)); [done|].
  by destruct (last_data_migration rotki).
Qed.

(** No two selected records share a version when no two registered ones
    do. *)
Lemma select_NoDup (ml : list (MigrationRecord DB)) m :
  NoDup (version <$> ml) -> NoDup (version <$> select ml m).
Proof.
  intros Hnodup. rewrite select_permutation.
  apply (sublist_NoDup _ (version <$> ml)); [exact Hnodup|].
  apply fmap_sublist. apply sublist_filter.
Qed.


(** C4 -- migration failure isolation.  When the selected migrations are
    [pre], then [record], then [post], the functions of [pre] return and the
    function of [record] raises with [message]: the call records exactly one
    more error, whose text is
    "Failed to run soft data migration to version {v} due to {message}";
    it invokes the migrations of [pre] and [record] and none of [post];
    and the marker is the version of the last migration of [pre], or the
    marker as it was when [pre] is empty, which is not the version of
    [record] when no two registered migrations share a version. *)
Theorem failed_migration_isolated ml LAST rotki pre record post message d' :
  let rotki' := maybe_migrate_data ml LAST rotki in
  select ml (last_data_migration rotki) = pre ++ record :: post ->
  all_complete pre (db rotki) = true ->
  function record (db_after pre (db rotki)) = (Raises message, d') ->
  errors rotki'
  = errors rotki
    ++ ["Failed to run soft data migration to version "
        +:+ pretty (version record) +:+ " due to " +:+ message]
  /\ invoked rotki' = invoked rotki ++ (version <$> pre) ++ [version record]
  /\ last_data_migration rotki'
     = match last (version <$> pre) with
       | Some v => Some v
       | None => last_data_migration rotki
       end
  /\ (NoDup (version <$> ml) ->
      last_data_migration rotki' ≠ Some (version record)).
Proof.
  intros rotki' Hselected Hall Hraise. subst rotki'.
  rewrite maybe_migrate_data_selected
    by (rewrite Hselected; by destruct pre).
  rewrite Hselected.
  rewrite (run_migrations_failure pre record post rotki message d'
             Hall Hraise).
  cbn. repeat split. intros Hnodup.
  unfold marker_after.
  destruct (last (version <$> pre)) as [v|] eqn:Hlast.
  - apply (select_NoDup ml (last_data_migration rotki)) in Hnodup.
    rewrite Hselected, fmap_app, fmap_cons in Hnodup.
    apply NoDup_app in Hnodup as (_ & Hapart & _).
    intros [= ->]. apply (Hapart (version record)).
    + by apply last_Some_elem_of.
    + apply list_elem_of_here.
  - assert (record ∈ select ml (last_data_migration rotki)) as Hrecord.
    { rewrite Hselected. apply elem_of_app. right. apply list_elem_of_here. }
    apply select_unapplied in Hrecord as [Hunapplied _].
    destruct (last_data_migration rotki) as [m|]; [|done].
    cbn in Hunapplied. intros [= ->]. lia.
Qed.

(** The highest version bounds the version of every registered record, and
    is the version of one of them when there is one. *)
Lemma highest_version_spec (registered : list (MigrationRecord DB)) :
  (forall record, record ∈ registered ->
     version record <= highest_version registered)
  /\ (registered ≠ [] ->
      exists record,
        record ∈ registered /\ version record = highest_version registered).
Proof.
  unfold highest_version. split.
  - intros record Hrecord. apply max_list_elem_of_le.
    by apply list_elem_of_fmap_2.
  - intros Hregistered.
    assert (version <$> registered ≠ []) as Hversions
      by (by destruct registered).
    apply max_list_elem_of in Hversions.
    apply list_elem_of_fmap in Hversions as (record & Heq & Hrecord).
    by exists record.
Qed.


End ManagerFacts.


(** Witness of C4: of the migrations 1, 2 and 3 the second raises. *)
Lemma failed_migration_isolated_witness :
  let rotki' :=
    maybe_migrate_data [migration 1; botched 2; migration 3] 3
      (database (Some 0)) in
  errors rotki'
  = ["Failed to run soft data migration to version 2 due to ngmi"]
  /\ invoked rotki' = [1; 2]
  /\ last_data_migration rotki' = Some 1.
Proof.
  destruct (failed_migration_isolated
              [migration 1; botched 2; migration 3] 3 (database (Some 0))
              [migration 1] (botched 2) [migration 3] "ngmi" ["1"])
    as (Herrors & Hinvoked & Hmarker & _).
  - reflexivity.
  - reflexivity.
  - reflexivity.
  - cbv zeta. rewrite Herrors, Hinvoked, Hmarker. repeat split.
Defined.


(** Migration ordering: of the migrations 1, 2 and 3, from marker 1, the
    second and the third run, in that order. *)
Example migration_ordering :
  let rotki' :=
    maybe_migrate_data [migration 3; migration 1; migration 2] 3
      (database (Some 1)) in
  invoked rotki' = [2; 3] /\ last_data_migration rotki' = Some 3.
Proof. split; reflexivity. Qed.

(** [test_failed_migration]: the only migration raises ['ngmi'] from
    marker 0. *)
Example test_failed_migration :
  let rotki' := maybe_migrate_data [botched 1] 9 (database (Some 0)) in
  last_data_migration rotki' = Some 0
  /\ errors rotki'
     = ["Failed to run soft data migration to version 1 due to ngmi"].
Proof. split; reflexivity. Qed.


End DataMigrationFacts.

(** * The rules on the concrete environment *)

Module ScenarioFacts.
Import Scenario.

(** C1 -- acting-party correlation, which the code does not enforce.  Bob's
    spend sits in a transaction that Alice sent and whose log names Carol:
    the three addresses differ and the acting-party correlation fails, yet
    [_decode_convex_events] reclassifies the event as a deposit.  The chain
    [location_label == from_address == interacted_address is False] of the
    guard ends in a comparison of a string with [False]; see
    [skip_guard_amount_only]. *)
Theorem acting_party_mismatch_is_decoded :
  let e := heap stranger_world 0%nat in
  HistoryEvent.location_label e = Some bob
  /\ from_address (DecoderContext.transaction stranger_context) = alice
  /\ index (topics (DecoderContext.tx_log stranger_context)) 1
     = Returned (address_topic xc3)
  /\ hex_or_bytes_to_address (address_topic xc3) = carol
  /\ bob ≠ alice /\ alice ≠ carol /\ bob ≠ carol
  /\ ¬ acting_party_match stranger_context e
  /\ exists w',
       _decode_convex_events stranger_context stranger_world
       = (Returned DEFAULT_DECODING_OUTPUT, w')
       /\ heap w' 0%nat
          = {| HistoryEvent.event_type := DEPOSIT;
               HistoryEvent.event_subtype := NONE;
               HistoryEvent.asset := "CVX";
               HistoryEvent.balance := {| Balance.amount := 5 |};
               HistoryEvent.address := Some pool;
               HistoryEvent.location_label := Some bob;
               HistoryEvent.notes :=
                 Some "Deposit 5 CVX into convex cDAI+cUSDC pool";
               HistoryEvent.counterparty := Some "convex" |}
       /\ heap w' 0%nat ≠ e.
Proof.
  cbv zeta. repeat split; try (vm_compute; congruence).
  - intros (topic1 & _ & Hlabel & _). vm_compute in Hlabel. congruence.
  - eexists. split; [vm_compute; reflexivity|].
    split; [reflexivity|]. vm_compute. congruence.
Qed.

(** Witness of C2: Alice's spend of 7 against a log for 5. *)
Lemma amount_correlation_witness :
  HistoryEvent.address (heap mismatch_world 0%nat) ≠ Some ZERO_ADDRESS
  /\ heap (snd (_decode_convex_events (alice_context [0%nat])
                  mismatch_world)) 0%nat
     = heap mismatch_world 0%nat.
Proof.
  split; [vm_compute; congruence|].
  apply (amount_correlation (alice_context [0%nat]) mismatch_world 0%nat).
  - vm_compute; congruence.
  - intros crypto_asset _. vm_compute. congruence.
Defined.

(** Alice passes the acting-party correlation of her own transaction. *)
Lemma alice_acting_party events event_type asset amount event_address :
  acting_party_match (alice_context events)
    (placeholder event_type asset amount event_address (Some alice)).
Proof. exists (address_topic xa1). repeat split. Qed.



(** Witness of C9: of Alice's two spends the one of the unknown asset is
    notified and skipped, the other becomes a deposit. *)
Lemma unclassifiable_asset_skipped_witness :
  exists w',
    _decode_convex_events (alice_context [0%nat; 1%nat]) mixed_world
    = (Returned DEFAULT_DECODING_OUTPUT, w')
    /\ heap w' 0%nat = heap mixed_world 0%nat
    /\ {| about_event := 0%nat; about_counterparty := "convex" |}
       ∈ msg_aggregator w'
    /\ HistoryEvent.event_type (heap w' 1%nat) = DEPOSIT.
Proof.
  destruct (unclassifiable_asset_skipped (alice_context [0%nat; 1%nat])
              mixed_world 0%nat UnknownAsset) as (_ & Hsame & Hrest).
  - apply list_elem_of_here.
  - reflexivity.
  - destruct Hrest as (w' & w'' & Hrun & Hnotified & Hrun' & Hothers).
    + by exists (address_topic xa1).
    + exists w'. rewrite Hrun in Hsame. repeat split; try assumption.
      rewrite Hothers.
      assert (w'' = snd (_decode_convex_events
                           (without 0%nat (alice_context [0%nat; 1%nat]))
                           mixed_world)) as -> by (by rewrite Hrun').
      reflexivity.
Defined.

(** Witness of C10: the receipt of an unknown asset, all four conditions
    holding. *)
Lemma enrichment_raises_unresolved_witness :
  _maybe_enrich_convex_transfers abra_context (abra_world "mystery")
  = (Raised (AssetException UnknownAsset), abra_world "mystery").
Proof.
  apply (enrichment_raises_unresolved abra_context (abra_world "mystery")
           UnknownAsset).
  - repeat split. exists abra_topic. split; [reflexivity|].
    apply list_elem_of_here.
  - reflexivity.
Defined.

(** The four conditions hold in the scenario of the intermediary token,
    whatever the asset. *)
Lemma abra_conditions asset :
  enrichment_conditions abra_context (heap (abra_world asset) 0%nat).
Proof.
  repeat split. exists abra_topic. split; [reflexivity|].
  apply list_elem_of_here.
Qed.

(** C8, as stated, fails: the four conditions hold for the receipt of an
    unknown asset, and the rule raises instead of reclassifying it. *)
Lemma enrichment_contract_counterexample :
  ¬ enrichment_contract_as_specified abra_context (abra_world "mystery").
Proof.
  intros [[_ Hreclassified] _].
  destruct (Hreclassified (abra_conditions "mystery")) as [Hsubtype _].
  vm_compute in Hsubtype. congruence.
Qed.

(** Witness of C8 as amended: the receipt of [CVX] is reclassified. *)
Lemma enrichment_contract_witness :
  fst (_maybe_enrich_convex_transfers abra_context (abra_world "CVX"))
  = Returned DEFAULT_ENRICHMENT_OUTPUT
  /\ HistoryEvent.event_subtype
       (heap (snd (_maybe_enrich_convex_transfers abra_context
                     (abra_world "CVX"))) 0%nat)
     = REWARD.
Proof.
  destruct (enrichment_contract abra_context (abra_world "CVX")
              transfer_signature) as (Hmatch & _ & _).
  - reflexivity.
  - intros _. by exists abra_topic.
  - destruct (Hmatch "CVX" (abra_conditions "CVX") eq_refl)
      as (Hreturned & Hevent & _).
    split; [exact Hreturned|].
    exact (f_equal HistoryEvent.event_subtype Hevent).
Defined.

(** On a log without topics no condition holds and the rule raises
    [IndexError] at [topics[0]]. *)
Lemma enrichment_topicless_raises :
  ¬ enrichment_conditions topicless_context (heap (abra_world "CVX") 0%nat)
  /\ _maybe_enrich_convex_transfers topicless_context (abra_world "CVX")
     = (Raised IndexError, abra_world "CVX").
Proof.
  split; [|reflexivity].
  intros (Htopic0 & _). vm_compute in Htopic0. congruence.
Qed.

(** The deposit scenario of the specification: Alice's spend of 5 to the
    pool, against a deposit log for 5 that names her. *)
Example deposit_into_pool :
  let w := world_of [placeholder SPEND "CVX" 5 (Some pool) (Some alice)] in
  exists w',
    _decode_convex_events (alice_context [0%nat]) w = (Returned (), w')
    /\ HistoryEvent.event_type (heap w' 0%nat) = DEPOSIT
    /\ HistoryEvent.counterparty (heap w' 0%nat) = Some "convex"
    /\ HistoryEvent.notes (heap w' 0%nat)
       = Some "Deposit 5 CVX into convex cDAI+cUSDC pool".
Proof. eexists. split; [vm_compute; reflexivity|]. repeat split. Qed.

(** The same event object listed twice is reclassified once. *)
Example deposit_listed_twice :
  let w := world_of [placeholder SPEND "CVX" 5 (Some pool) (Some alice)] in
  forall r,
    heap (snd (_decode_convex_events (alice_context [0%nat; 0%nat]) w)) r
    = heap (snd (_decode_convex_events (alice_context [0%nat]) w)) r.
Proof.
  intros w r. destruct r as [|r]; [reflexivity|].
  vm_compute. reflexivity.
Qed.

End ScenarioFacts.

(** * Further facts about the rules of [ConvexDecoder] *)

Section MoreRuleFacts.
Context `{Collaborators}.

(** What the rule does to any one event: nothing, or one pass of the loop
    on a listed event of a log with two topics. *)
Lemma rule_effect context w r :
  heap (snd (_decode_convex_events context w)) r = heap w r
  \/ (r ∈ DecoderContext.decoded_events context
      /\ exists topic0 topic1,
           topics (DecoderContext.tx_log context) !! 0%nat = Some topic0
           /\ topics (DecoderContext.tx_log context) !! 1%nat = Some topic1
           /\ heap (snd (_decode_convex_events context w)) r
              = decoded context (raw_amount (DecoderContext.tx_log context))
                  (hex_or_bytes_to_address topic1) topic0 (heap w r)).
Proof.
  destruct (topics (DecoderContext.tx_log context) !! 1%nat)
    as [topic1|] eqn:Htopic1.
  - destruct (topics_second_first _ _ Htopic1) as [topic0 Htopic0].
    destruct (_decode_convex_events_run context w topic0 topic1
                Htopic0 Htopic1) as (w' & Hrun & Hin & Hout & _).
    rewrite Hrun. cbn [snd].
    destruct (decide (r ∈ DecoderContext.decoded_events context))
      as [Hr|Hr]; [right|left; by apply Hout].
    split; [exact Hr|]. exists topic0, topic1. auto.
  - left. by rewrite (_decode_convex_events_short context w Htopic1).
Qed.

Lemma decoded_same_identity context amount_raw interacted_address topic0 e :
  same_identity (decoded context amount_raw interacted_address topic0 e) e.
Proof.
  unfold decoded, same_identity.
  destruct (resolve_to_crypto_asset _) as [err|crypto_asset]; [done|].
  destruct (skip_guard _ _ _ _ _ _); [done|].
  destruct (HistoryEvent.event_type e), (HistoryEvent.event_subtype e);
    repeat case_bool_decide; done.
Qed.

(** One pass leaves an event that is not unclassified as it is. *)
Lemma decoded_not_unclassified context amount_raw interacted_address topic0
    e :
  ¬ unclassified e ->
  decoded context amount_raw interacted_address topic0 e = e.
Proof.
  intros Hno. unfold decoded.
  destruct (resolve_to_crypto_asset _) as [err|crypto_asset];
    [reflexivity|].
  destruct (skip_guard _ _ _ _ _ _); [reflexivity|].
  destruct (HistoryEvent.event_type e) eqn:Htype,
    (HistoryEvent.event_subtype e) eqn:Hsubtype; try reflexivity;
    exfalso; apply Hno; unfold unclassified; rewrite Htype, Hsubtype; auto.
Qed.

(** What one pass has done when it has changed an event. *)
Lemma decoded_mutation context amount_raw interacted_address topic0 e :
  decoded context amount_raw interacted_address topic0 e ≠ e ->
  HistoryEvent.event_subtype e = NONE
  /\ reclassified_from e
       (decoded context amount_raw interacted_address topic0 e)
  /\ HistoryEvent.counterparty
       (decoded context amount_raw interacted_address topic0 e)
     = Some CPT_CONVEX
  /\ is_Some (HistoryEvent.notes
                (decoded context amount_raw interacted_address topic0 e)).
Proof.
  unfold decoded, reclassified_from.
  destruct (resolve_to_crypto_asset _) as [err|crypto_asset]; [done|].
  destruct (skip_guard _ _ _ _ _ _); [done|].
  destruct (HistoryEvent.event_type e) eqn:Htype,
    (HistoryEvent.event_subtype e) eqn:Hsubtype; try done;
    repeat case_bool_decide; try done; intros _; cbn; rewrite ?Htype;
    eauto 10.
Qed.

(** X1 -- the decoder rule is idempotent on the events.  Running
    [_decode_convex_events] a second time on the world the first run left
    ends the same way and leaves every event as the first run left it. *)
Theorem decode_convex_events_idempotent context w :
  let once := _decode_convex_events context w in
  let twice := _decode_convex_events context (snd once) in
  fst twice = fst once /\ forall r, heap (snd twice) r = heap (snd once) r.
Proof.
  cbv zeta.
  destruct (topics (DecoderContext.tx_log context) !! 1%nat)
    as [topic1|] eqn:Htopic1.
  - destruct (topics_second_first _ _ Htopic1) as [topic0 Htopic0].
    destruct (_decode_convex_events_run context w topic0 topic1
                Htopic0 Htopic1) as (w1 & Hrun1 & Hin1 & Hout1 & _).
    rewrite Hrun1. cbn [fst snd].
    destruct (_decode_convex_events_run context w1 topic0 topic1
                Htopic0 Htopic1) as (w2 & Hrun2 & Hin2 & Hout2 & _).
    rewrite Hrun2. cbn [fst snd]. split; [reflexivity|]. intros r.
    destruct (decide (r ∈ DecoderContext.decoded_events context))
      as [Hr|Hr]; [|by apply Hout2].
    rewrite (Hin2 r Hr), (Hin1 r Hr). apply decoded_idempotent.
  - rewrite (_decode_convex_events_short context w Htopic1). cbn [fst snd].
    by rewrite (_decode_convex_events_short context w Htopic1).
Qed.

(** X2 -- what the decoder rule never writes.  Whatever the context and
    however the call ends, an event that is not listed in the context is
    left as it was, and every event keeps its asset, balance, address and
    location label. *)
Theorem decode_convex_events_frame context w r :
  (r ∉ DecoderContext.decoded_events context ->
   heap (snd (_decode_convex_events context w)) r = heap w r)
  /\ same_identity (heap (snd (_decode_convex_events context w)) r)
       (heap w r).
Proof.
  destruct (rule_effect context w r)
    as [Hsame|(Hr & topic0 & topic1 & _ & _ & Hpass)].
  - rewrite Hsame. split; [done|]. by unfold same_identity.
  - rewrite Hpass. split; [done|]. apply decoded_same_identity.
Qed.

(** X3 -- single classification.  An event that is not at [(SPEND, NONE)] or
    [(RECEIVE, NONE)] is left as it was by the decoder rule. *)
Theorem classified_event_untouched context w r :
  ¬ unclassified (heap w r) ->
  heap (snd (_decode_convex_events context w)) r = heap w r.
Proof.
  intros Hclassified. apply unmutated_when_pass_is_identity.
  intros interacted_address topic0.
  by apply decoded_not_unclassified.
Qed.

(** X4 -- every mutation is a full reclassification.  When the decoder rule
    has changed an event, the event was listed, had subtype [NONE] and
    satisfied the amount correlation; a spend has become a return of wrapped
    tokens or a deposit and a receipt a withdrawal or a reward; and the
    event now carries the Convex counterparty and a note, with its asset,
    balance, address and location label as before. *)
Theorem mutation_is_reclassification context w r :
  let e := heap w r in
  let e' := heap (snd (_decode_convex_events context w)) r in
  e' ≠ e ->
  r ∈ DecoderContext.decoded_events context
  /\ HistoryEvent.event_subtype e = NONE
  /\ amount_match context e
  /\ reclassified_from e e'
  /\ HistoryEvent.counterparty e' = Some CPT_CONVEX
  /\ is_Some (HistoryEvent.notes e')
  /\ same_identity e' e.
Proof.
  cbv zeta. intros Hmutated.
  pose proof (mutated_amount_match context w r Hmutated) as Hamount.
  destruct (rule_effect context w r)
    as [Hsame|(Hr & topic0 & topic1 & _ & _ & Hpass)]; [done|].
  rewrite Hpass in Hmutated |- *.
  destruct (decoded_mutation _ _ _ _ _ Hmutated)
    as (Hsubtype & Hreclassified & Hcounterparty & Hnotes).
  repeat split; try assumption; apply decoded_same_identity.
Qed.

(** X5 -- the exceptions of the decoder rule.  The rule raises exactly when
    the log has fewer than two topics; the exception is then [IndexError],
    raised at [topics[1]] before any event is read, so the world is the one
    the rule was given.  On every other log the rule returns its default
    output. *)
Theorem decode_convex_events_exceptions context w :
  let run := _decode_convex_events context w in
  ((length (topics (DecoderContext.tx_log context)) < 2)%nat ->
   run = (Raised IndexError, w))
  /\ ((2 <= length (topics (DecoderContext.tx_log context)))%nat ->
      fst run = Returned DEFAULT_DECODING_OUTPUT)
  /\ (forall e, fst run = Raised e -> e = IndexError /\ snd run = w).
Proof.
  cbv zeta.
  destruct (topics (DecoderContext.tx_log context) !! 1%nat)
    as [topic1|] eqn:Htopic1.
  - destruct (topics_second_first _ _ Htopic1) as [topic0 Htopic0].
    destruct (_decode_convex_events_run context w topic0 topic1
                Htopic0 Htopic1) as (w' & Hrun & _).
    rewrite Hrun. cbn [fst snd]. apply lookup_lt_Some in Htopic1.
    split; [lia|]. split; [done|]. intros e [=].
  - rewrite (_decode_convex_events_short context w Htopic1).
    apply lookup_ge_None in Htopic1. cbn [fst snd].
    split; [done|]. split; [lia|]. by intros e [= <-].
Qed.

(** The notifications of a loop, as a list of references. *)
Lemma notified_filter (events : list ref) w :
  (events ≫= fun r => notified r (heap w r))
  = (fun r => {| about_event := r; about_counterparty := CPT_CONVEX |})
      <$> filter (unresolvable w) events.
Proof.
  induction events as [|x xs IH]; [reflexivity|].
  cbn [mbind list_bind]. rewrite IH, filter_cons.
  unfold notified at 1.
  destruct (decide (unresolvable w x)) as [[err Herr]|Hno].
  - by rewrite Herr.
  - destruct (resolve_to_crypto_asset (HistoryEvent.asset (heap w x)))
      as [err|crypto_asset] eqn:Hx; [|reflexivity].
    exfalso. apply Hno. by exists err.
Qed.

(** X6 -- the notifications of the decoder rule.  On a log with the second
    topic the rule reads, the rule keeps the notifications already recorded
    and adds, in the order of the list, one notification with the Convex
    counterparty for each listed reference whose asset does not resolve, as
    many times as the reference is listed; nothing else is notified. *)
Theorem decode_convex_events_notifications context w :
  is_Some (topics (DecoderContext.tx_log context) !! 1%nat) ->
  msg_aggregator (snd (_decode_convex_events context w))
  = msg_aggregator w
    ++ ((fun r => {| about_event := r; about_counterparty := CPT_CONVEX |})
          <$> filter (unresolvable w)
                (DecoderContext.decoded_events context)).
Proof.
  intros [topic1 Htopic1].
  destruct (topics_second_first _ _ Htopic1) as [topic0 Htopic0].
  destruct (_decode_convex_events_run context w topic0 topic1
              Htopic0 Htopic1) as (w' & Hrun & _ & _ & Hmsg).
  rewrite Hrun. cbn [snd]. by rewrite Hmsg, notified_filter.
Qed.

(** One pass for a log from another emitter differs in the note only. *)
Lemma decoded_emitted_by emitter context amount_raw interacted_address
    topic0 e :
  agree_but_notes
    (decoded (emitted_by emitter context) amount_raw interacted_address
       topic0 e)
    (decoded context amount_raw interacted_address topic0 e).
Proof.
  unfold decoded, agree_but_notes, same_identity. cbn.
  destruct (resolve_to_crypto_asset _) as [err|crypto_asset]; [done|].
  destruct (skip_guard _ _ _ _ _ _); [done|].
  destruct (HistoryEvent.event_type e), (HistoryEvent.event_subtype e);
    repeat case_bool_decide; done.
Qed.

(** X7 -- the pool table decides the note and nothing else.  For the same
    log emitted by any other address, in or out of [CONVEX_POOLS], the rule
    ends the same way, notifies the same, and leaves every event with the
    same type, subtype, counterparty, asset, balance, address and location
    label. *)
Theorem emitter_decides_note_only emitter context w :
  let run := _decode_convex_events context w in
  let run' := _decode_convex_events (emitted_by emitter context) w in
  fst run' = fst run
  /\ msg_aggregator (snd run') = msg_aggregator (snd run)
  /\ forall r, agree_but_notes (heap (snd run') r) (heap (snd run) r).
Proof.
  cbv zeta.
  destruct (topics (DecoderContext.tx_log context) !! 1%nat)
    as [topic1|] eqn:Htopic1.
  - destruct (topics_second_first _ _ Htopic1) as [topic0 Htopic0].
    destruct (_decode_convex_events_run context w topic0 topic1
                Htopic0 Htopic1) as (w1 & Hrun1 & Hin1 & Hout1 & Hmsg1).
    destruct (_decode_convex_events_run (emitted_by emitter context) w
                topic0 topic1 Htopic0 Htopic1)
      as (w2 & Hrun2 & Hin2 & Hout2 & Hmsg2).
    rewrite Hrun1, Hrun2. cbn [fst snd].
    split; [reflexivity|]. split; [by rewrite Hmsg1, Hmsg2|].
    intros r. cbn in Hin2, Hout2.
    destruct (decide (r ∈ DecoderContext.decoded_events context))
      as [Hr|Hr].
    + rewrite (Hin1 r Hr), (Hin2 r Hr). apply decoded_emitted_by.
    + rewrite (Hout1 r Hr), (Hout2 r Hr).
      by unfold agree_but_notes, same_identity.
  - rewrite (_decode_convex_events_short context w Htopic1).
    rewrite (_decode_convex_events_short (emitted_by emitter context) w
               Htopic1).
    cbn [fst snd]. by unfold agree_but_notes, same_identity.
Qed.

End MoreRuleFacts.

(** * Further facts about the enrichment rule *)

Section MoreEnrichmentFacts.
Context `{Collaborators}.

(** When a condition fails the rule leaves the world as it was, whether it
    returns or raises at a topic the log does not have. *)
Lemma enrichment_no_match_world context w :
  ¬ enrichment_conditions context (heap w (EnricherContext.event context)) ->
  snd (_maybe_enrich_convex_transfers context w) = w
  /\ (fst (_maybe_enrich_convex_transfers context w)
      = Returned DEFAULT_ENRICHMENT_OUTPUT
      \/ fst (_maybe_enrich_convex_transfers context w) = Raised IndexError).
Proof.
  intros Hno.
  destruct (topics (EnricherContext.tx_log context) !! 0%nat)
    as [topic0|] eqn:Htopic0.
  - destruct (decide (topic0 = ERC20_OR_ERC721_TRANSFER
                      /\ topics (EnricherContext.tx_log context) !! 1%nat
                         = None)) as [[-> Htopic1]|Hreadable].
    + unfold _maybe_enrich_convex_transfers, bind, lift, index.
      rewrite Htopic0. cbn.
      rewrite (bool_decide_eq_true_2 _ eq_refl). cbn.
      rewrite Htopic1. cbn. auto.
    + rewrite (_maybe_enrich_convex_transfers_no_match context w topic0);
        [auto|exact Htopic0| |exact Hno].
      intros ->.
      destruct (topics (EnricherContext.tx_log context) !! 1%nat) eqn:Ht;
        [done|]. exfalso. by apply Hreadable.
  - unfold _maybe_enrich_convex_transfers, bind, lift, index.
    rewrite Htopic0. cbn. auto.
Qed.

(** The three ways the rule can go. *)
Lemma enrichment_cases context w :
  let event := EnricherContext.event context in
  (exists crypto_asset w',
     enrichment_conditions context (heap w event)
     /\ resolve_to_crypto_asset (HistoryEvent.asset (heap w event))
        = inr crypto_asset
     /\ _maybe_enrich_convex_transfers context w
        = (Returned DEFAULT_ENRICHMENT_OUTPUT, w')
     /\ heap w' event = enriched context crypto_asset (heap w event)
     /\ (forall r, r ≠ event -> heap w' r = heap w r)
     /\ msg_aggregator w' = msg_aggregator w)
  \/ (exists err,
        enrichment_conditions context (heap w event)
        /\ _maybe_enrich_convex_transfers context w
           = (Raised (AssetException err), w))
  \/ (¬ enrichment_conditions context (heap w event)
      /\ snd (_maybe_enrich_convex_transfers context w) = w
      /\ (fst (_maybe_enrich_convex_transfers context w)
          = Returned DEFAULT_ENRICHMENT_OUTPUT
          \/ fst (_maybe_enrich_convex_transfers context w)
             = Raised IndexError)).
Proof.
  cbv zeta.
  destruct (enrichment_conditions_dec context
              (heap w (EnricherContext.event context)))
    as [Hconditions|Hno].
  - destruct (resolve_to_crypto_asset
                (HistoryEvent.asset
                   (heap w (EnricherContext.event context))))
      as [err|crypto_asset] eqn:Hresolve.
    + right. left. exists err. split; [exact Hconditions|].
      by apply _maybe_enrich_convex_transfers_raise.
    + left.
      destruct (_maybe_enrich_convex_transfers_match context w crypto_asset
                  Hconditions Hresolve) as (w' & Hrun & Hevent & Hrest).
      exists crypto_asset, w'. auto.
  - right. right. split; [exact Hno|].
    by apply enrichment_no_match_world.
Qed.

(** An enriched event no longer satisfies the conditions of the rule. *)
Lemma enriched_not_conditions context context' crypto_asset e :
  ¬ enrichment_conditions context' (enriched context crypto_asset e).
Proof. intros (_ & _ & _ & _ & Hsubtype). discriminate. Qed.

(** X8 -- the enrichment rule is idempotent.  Running
    [_maybe_enrich_convex_transfers] again on the world the first run left
    ends as the first run ended and leaves that world exactly as it is: an
    event is enriched at most once. *)
Theorem enrichment_idempotent context w :
  let once := _maybe_enrich_convex_transfers context w in
  _maybe_enrich_convex_transfers context (snd once) = once.
Proof.
  cbv zeta.
  destruct (enrichment_cases context w)
    as [(crypto_asset & w' & Hconditions & _ & Hrun & Hevent & _)
       |[(err & _ & Hrun)|(_ & Hworld & _)]].
  - rewrite Hrun. cbn [snd].
    destruct Hconditions as (Htopic0 & (topic1 & Htopic1 & _) & _).
    apply _maybe_enrich_convex_transfers_no_match
      with ERC20_OR_ERC721_TRANSFER; [exact Htopic0|by eauto|].
    rewrite Hevent. apply enriched_not_conditions.
  - by rewrite Hrun.
  - rewrite Hworld. by destruct (_maybe_enrich_convex_transfers context w).
Qed.

(** X9 -- the exceptions of the enrichment rule.  Whenever the rule raises,
    the world is the one it was given: [IndexError] comes from a topic the
    log does not have, read before the event, and the exception of the asset
    resolver is raised before the first assignment.  An exception of the
    resolver is raised only when all four conditions hold. *)
Theorem enrichment_exceptions context w e :
  fst (_maybe_enrich_convex_transfers context w) = Raised e ->
  snd (_maybe_enrich_convex_transfers context w) = w
  /\ (e = IndexError
      /\ (length (topics (EnricherContext.tx_log context)) < 2)%nat
      \/ exists err,
           e = AssetException err
           /\ enrichment_conditions context
                (heap w (EnricherContext.event context))
           /\ resolve_to_crypto_asset
                (HistoryEvent.asset
                   (heap w (EnricherContext.event context)))
              = inl err).
Proof.
  destruct (enrichment_cases context w)
    as [(crypto_asset & w' & _ & _ & Hrun & _)
       |[(err & Hconditions & Hrun)|(Hno & Hworld & Hend)]].
  - rewrite Hrun. discriminate.
  - rewrite Hrun. cbn [fst snd]. intros [= <-]. split; [reflexivity|].
    right. exists err. split; [reflexivity|]. split; [exact Hconditions|].
    destruct (resolve_to_crypto_asset _) as [err'|crypto_asset] eqn:Hresolve.
    + rewrite (_maybe_enrich_convex_transfers_raise context w err'
                 Hconditions Hresolve) in Hrun. congruence.
    + destruct (_maybe_enrich_convex_transfers_match context w crypto_asset
                  Hconditions Hresolve) as (w' & Hrun' & _).
      congruence.
  - intros Hraised. split; [exact Hworld|]. left.
    destruct Hend as [Hend|Hend]; [congruence|].
    split; [congruence|].
    destruct (topics (EnricherContext.tx_log context)) as [|topic0 rest]
      eqn:Htopics; [cbn; lia|].
    destruct rest as [|topic1 rest]; [cbn; lia|].
    exfalso.
    assert (topics (EnricherContext.tx_log context) !! 0%nat = Some topic0)
      as Htopic0 by (by rewrite Htopics).
    rewrite (_maybe_enrich_convex_transfers_no_match context w topic0
               Htopic0) in Hend; [discriminate| |exact Hno].
    intros _. rewrite Htopics. by exists topic1.
Qed.

(** X10 -- what the enrichment rule never writes.  Whatever the context and
    however the call ends, the rule notifies nothing, leaves every event
    other than its own as it was, and keeps the type, asset, balance,
    address and location label of its own event. *)
Theorem enrichment_frame context w :
  let w' := snd (_maybe_enrich_convex_transfers context w) in
  let event := EnricherContext.event context in
  msg_aggregator w' = msg_aggregator w
  /\ (forall r, r ≠ event -> heap w' r = heap w r)
  /\ HistoryEvent.event_type (heap w' event)
     = HistoryEvent.event_type (heap w event)
  /\ same_identity (heap w' event) (heap w event).
Proof.
  cbv zeta.
  destruct (enrichment_cases context w)
    as [(crypto_asset & w' & _ & _ & Hrun & Hevent & Hrest & Hmsg)
       |[(err & _ & Hrun)|(_ & Hworld & _)]].
  - rewrite Hrun. cbn [snd]. rewrite Hevent.
    repeat split; try assumption.
  - rewrite Hrun. cbn [snd]. by unfold same_identity.
  - rewrite Hworld. by unfold same_identity.
Qed.

(** X11 -- an event the decoder rule has reclassified is not enriched.  On
    the world the decoder rule left, the enrichment rule run on an event
    that the decoder rule changed leaves the world exactly as it is. *)
Theorem decoded_event_not_enriched decoder_context enricher_context w :
  let w' := snd (_decode_convex_events decoder_context w) in
  let event := EnricherContext.event enricher_context in
  heap w' event ≠ heap w event ->
  snd (_maybe_enrich_convex_transfers enricher_context w') = w'.
Proof.
  cbv zeta. intros Hmutated.
  apply enrichment_no_match_world.
  intros (_ & _ & _ & Htype & Hsubtype).
  destruct (rule_effect decoder_context w
              (EnricherContext.event enricher_context))
    as [Hsame|(_ & topic0 & topic1 & _ & _ & Hpass)]; [done|].
  rewrite Hpass in Hmutated, Htype, Hsubtype.
  destruct (decoded_mutation _ _ _ _ _ Hmutated)
    as (_ & Hreclassified & _).
  destruct Hreclassified as [(_ & [[Ht Hs]|[Ht Hs]])|(_ & [[Ht Hs]|[Ht Hs]])];
    congruence.
Qed.

(** X12 -- an event the enrichment rule has reclassified is not decoded.
    On the world the enrichment rule left, the decoder rule, whatever its
    context, leaves an event that the enrichment rule changed as it is. *)
Theorem enriched_event_not_decoded enricher_context decoder_context w :
  let w' := snd (_maybe_enrich_convex_transfers enricher_context w) in
  let event := EnricherContext.event enricher_context in
  heap w' event ≠ heap w event ->
  heap (snd (_decode_convex_events decoder_context w')) event
  = heap w' event.
Proof.
  cbv zeta. intros Hmutated.
  apply unmutated_when_pass_is_identity.
  intros interacted_address topic0. apply decoded_classified.
  destruct (enrichment_cases enricher_context w)
    as [(crypto_asset & w' & _ & _ & Hrun & Hevent & _)
       |[(err & _ & Hrun)|(_ & Hworld & _)]].
  - rewrite Hrun. cbn [snd]. by rewrite Hevent.
  - rewrite Hrun in Hmutated. done.
  - rewrite Hworld in Hmutated. done.
Qed.

End MoreEnrichmentFacts.

(** * Facts about the registry of [ConvexDecoder] *)

Section RegistryFacts.
Context `{Collaborators} `{RegistryConstants}.

(** X13 -- the registry of the decoder.  An address has an entry in
    [addresses_to_decoders] exactly when it is one of the five fixed
    contracts, a key of [CONVEX_POOLS] or one of [CONVEX_VIRTUAL_REWARDS];
    and every entry is the one-element tuple of [_decode_convex_events],
    also for an address that several of the three sources name. *)
Theorem addresses_to_decoders_spec (a : string) :
  (registered a ->
   addresses_to_decoders !! a = Some [_decode_convex_events])
  /\ (¬ registered a -> addresses_to_decoders !! a = None).
Proof.
  unfold addresses_to_decoders, update, registered, DecoderRule.
  set (rule := [_decode_convex_events]).
  assert (forall l : list string,
            list_to_map
              (M := gmap string
                      (list (DecoderContext.t -> Py DecodingOutput)))
              ((fun addr => (addr, rule)) <$> l) !! a
            = if decide (a ∈ l) then Some rule else None) as Hlist.
  { induction l as [|x xs IH]; [reflexivity|].
    rewrite fmap_cons, list_to_map_cons.
    destruct (decide (x = a)) as [->|Hne].
    - rewrite lookup_insert_eq.
      by rewrite decide_True by apply list_elem_of_here.
    - rewrite lookup_insert_ne by done. rewrite IH.
      destruct (decide (a ∈ xs)) as [Hin|Hout].
      + by rewrite decide_True by (by apply list_elem_of_further).
      + rewrite decide_False; [done|].
        intros [->|Hin]%elem_of_cons; done. }
  rewrite !lookup_union, Hlist, lookup_fmap, !lookup_insert, lookup_empty.
  split.
  - intros Hregistered.
    destruct (decide (a ∈ CONVEX_VIRTUAL_REWARDS)) as [Hvirtual|Hvirtual];
      destruct (CONVEX_POOLS !! a) as [pool|] eqn:Hpool; cbn;
      repeat case_decide; try reflexivity.
    exfalso.
    destruct Hregistered as [Hfixed|[[pool Hpool']|Hvirtual']];
      [|congruence|done].
    repeat (apply elem_of_cons in Hfixed as [->|Hfixed]; [done|]).
    by apply elem_of_nil in Hfixed.
  - intros Hno.
    destruct (decide (a ∈ CONVEX_VIRTUAL_REWARDS)) as [Hvirtual|Hvirtual];
      [exfalso; apply Hno; auto|].
    destruct (CONVEX_POOLS !! a) as [pool|] eqn:Hpool;
      [exfalso; apply Hno; right; left; by exists pool|].
    cbn. repeat case_decide; try reflexivity;
      exfalso; apply Hno; left; subst a; set_solver.
Qed.

End RegistryFacts.

(** * Facts about [EthereumInquirer] *)

Module EthereumInquirerFacts.
Import EthereumInquirer.

Section InquirerFacts.
Context `{Network}.

(** ** [ens_reverse_lookup] *)

(** What the inner loop records: an entry is an old one, or comes from a
    pair of the chunk, with the empty name replaced by [None]. *)
Lemma record_names_lookup pairs human_names addr v :
  record_names pairs human_names !! addr = Some v ->
  human_names !! addr = Some v
  \/ exists name,
       (addr, name) ∈ pairs
       /\ v = if bool_decide (name = "") then None else Some name.
Proof.
  revert human_names.
  induction pairs as [|[addr' name'] rest IH]; intros human_names Hlookup;
    [by left|].
  cbn in Hlookup. apply IH in Hlookup as [Hold|(name & Hin & ->)].
  - destruct (decide (addr' = addr)) as [->|Hne].
    + right. exists name'. split; [apply list_elem_of_here|].
      case_bool_decide; rewrite lookup_insert_eq in Hold; congruence.
    + left. case_bool_decide; by rewrite lookup_insert_ne in Hold.
  - right. exists name. split; [by apply list_elem_of_further|done].
Qed.

(** The inner loop records every address of its pairs. *)
Lemma record_names_is_Some pairs human_names addr :
  is_Some (human_names !! addr) \/ addr ∈ pairs.*1 ->
  is_Some (record_names pairs human_names !! addr).
Proof.
  revert human_names.
  induction pairs as [|[addr' name'] rest IH]; intros human_names Hsome.
  { destruct Hsome as [Hold|Hin]; [exact Hold|by apply elem_of_nil in Hin]. }
  cbn. apply IH.
  destruct (decide (addr' = addr)) as [->|Hne].
  - left. case_bool_decide; rewrite lookup_insert_eq; eauto.
  - destruct Hsome as [Hold|Hin].
    + left. by case_bool_decide; rewrite lookup_insert_ne.
    + right. cbn in Hin. apply elem_of_cons in Hin as [Heq|Hin]; [|exact Hin].
      congruence.
Qed.

(** An invariant of the entries carries over the outer loop. *)
Lemma lookup_chunks_entries chunks human_names n names n' addr v :
  lookup_chunks chunks human_names n = (Return names, n') ->
  names !! addr = Some v ->
  human_names !! addr = Some v
  \/ (addr ∈ concat chunks /\ v ≠ Some "").
Proof.
  revert human_names n.
  induction chunks as [|chunk rest IH]; intros human_names n Hrun Hlookup.
  { cbn in Hrun. injection Hrun as <- <-. by left. }
  cbn in Hrun. unfold bind, external in Hrun.
  destruct (ens_reverse_records_getNames chunk (remote n))
    as [[result|e] remote'] eqn:Hcall; [|discriminate].
  destruct (IH _ _ Hrun Hlookup) as [Hold|[Hin Hname]].
  - apply record_names_lookup in Hold as [Hold|(name & Hin & ->)];
      [by left|right].
    split.
    + cbn. apply elem_of_app. left. by apply elem_of_zip_l in Hin.
    + case_bool_decide; congruence.
  - right. split; [|exact Hname]. cbn. apply elem_of_app. by right.
Qed.

(** X14 -- what a reverse ENS lookup can answer.  When
    [ens_reverse_lookup] returns, every address of the mapping is an address
    of one of the chunks that were queried, and no address is mapped to the
    empty name: the contract's empty string is always turned into
    [None]. *)
Theorem ens_reverse_lookup_entries addresses n names n' addr v :
  ens_reverse_lookup addresses n = (Return names, n') ->
  names !! addr = Some v ->
  addr ∈ concat (get_chunks addresses MAX_ADDRESSES_IN_REVERSE_ENS_QUERY)
  /\ v ≠ Some "".
Proof.
  unfold ens_reverse_lookup. intros Hrun Hlookup.
  destruct (lookup_chunks_entries _ _ _ _ _ _ _ Hrun Hlookup)
    as [Hold|Hnew]; [|exact Hnew].
  by rewrite lookup_empty in Hold.
Qed.

Lemma lookup_chunks_complete chunks human_names n names n' addr :
  (forall chunk remote result remote',
     ens_reverse_records_getNames chunk remote = (Return result, remote') ->
     length result = length chunk) ->
  lookup_chunks chunks human_names n = (Return names, n') ->
  is_Some (human_names !! addr) \/ addr ∈ concat chunks ->
  is_Some (names !! addr).
Proof.
  intros Hfull. revert human_names n.
  induction chunks as [|chunk rest IH]; intros human_names n Hrun Hsome.
  { cbn in Hrun. injection Hrun as <- <-.
    destruct Hsome as [Hold|Hin]; [exact Hold|by apply elem_of_nil in Hin]. }
  cbn in Hrun. unfold bind, external in Hrun.
  destruct (ens_reverse_records_getNames chunk (remote n))
    as [[result|e] remote'] eqn:Hcall; [|discriminate].
  apply (IH _ _ Hrun).
  destruct Hsome as [Hold|Hin].
  - left. apply record_names_is_Some. by left.
  - cbn in Hin. apply elem_of_app in Hin as [Hin|Hin]; [left|by right].
    apply record_names_is_Some. right.
    rewrite fst_zip; [exact Hin|].
    by rewrite (Hfull _ _ _ _ Hcall).
Qed.

(** X15 -- a reverse ENS lookup answers for every address.  When the
    contract returns one name for each address of a chunk and
    [ens_reverse_lookup] returns, every address of every queried chunk has
    an entry in the mapping. *)
Theorem ens_reverse_lookup_complete addresses n names n' addr :
  (forall chunk remote result remote',
     ens_reverse_records_getNames chunk remote = (Return result, remote') ->
     length result = length chunk) ->
  ens_reverse_lookup addresses n = (Return names, n') ->
  addr ∈ concat (get_chunks addresses MAX_ADDRESSES_IN_REVERSE_ENS_QUERY) ->
  is_Some (names !! addr).
Proof.
  intros Hfull Hrun Hin.
  apply (lookup_chunks_complete _ _ _ _ _ _ Hfull Hrun). by right.
Qed.

(** X16 -- the calls of a reverse ENS lookup.  [ens_reverse_lookup] calls
    [getNames] once per chunk, in the order of the chunks, and stops at the
    first call that raises: the calls it has made are those of a prefix of
    the chunks, of all the chunks when it returns, and when it raises the
    exception is the one of the last call made. *)
Theorem ens_reverse_lookup_calls addresses n :
  let chunks := get_chunks addresses MAX_ADDRESSES_IN_REVERSE_ENS_QUERY in
  let run := ens_reverse_lookup addresses n in
  exists made,
    made `prefix_of` chunks
    /\ calls (snd run) = calls n ++ (CallGetNames <$> made)
    /\ (forall names, fst run = Return names -> made = chunks)
    /\ (forall e,
          fst run = Raise e ->
          exists chunk remote',
            last made = Some chunk
            /\ fst (ens_reverse_records_getNames chunk remote') = Raise e).
Proof.
  cbv zeta. unfold ens_reverse_lookup.
  generalize (get_chunks addresses MAX_ADDRESSES_IN_REVERSE_ENS_QUERY).
  generalize (∅ : gmap string (option string)).
  intros human_names chunks.
  revert human_names n.
  induction chunks as [|chunk rest IH]; intros human_names n.
  { exists []. cbn. rewrite app_nil_r. repeat split; [|discriminate].
    apply prefix_nil. }
  cbn. unfold bind, external.
  destruct (ens_reverse_records_getNames chunk (remote n))
    as [[result|e] remote'] eqn:Hcall.
  - destruct (IH (record_names (zip chunk result) human_names)
                {| remote := remote';
                   calls := calls n ++ [CallGetNames chunk] |})
      as (made & Hprefix & Hcalls & Hall & Hfail).
    exists (chunk :: made). split; [by apply prefix_cons|].
    split; [rewrite Hcalls; cbn; by rewrite <- app_assoc|].
    split.
    + intros names Hreturn. f_equal. by apply (Hall names).
    + intros e Hraise. destruct (Hfail e Hraise) as (c & r & Hlast & Hc).
      exists c, r. split; [|exact Hc].
      rewrite last_cons, Hlast. reflexivity.
  - exists [chunk]. cbn.
    split; [apply prefix_cons, prefix_nil|].
    split; [reflexivity|]. split; [discriminate|].
    intros e' [= <-]. exists chunk, (remote n).
    split; [reflexivity|]. by rewrite Hcall.
Qed.

(** ** [_get_blocknumber_by_time_from_subgraph] *)

(** The method asks the subgraph once, whatever happens next. *)
Lemma subgraph_run ts n :
  let asked := blocks_subgraph_query (blocks_query ts) (remote n) in
  let n' := {| remote := snd asked;
               calls := calls n ++ [CallBlocksSubgraph (blocks_query ts)] |} in
  _get_blocknumber_by_time_from_subgraph ts n
  = match fst asked with
    | Return response =>
        match first_block_number response with
        | Return result => (Return result, n')
        | Raise IndexError | Raise KeyError =>
            (Raise (unexpected_response response), n')
        | Raise e => (Raise e, n')
        end
    | Raise e => (Raise e, n')
    end.
Proof.
  cbv zeta.
  unfold _get_blocknumber_by_time_from_subgraph, bind, external, try_except,
    lift, raise.
  destruct (blocks_subgraph_query (blocks_query ts) (remote n))
    as [[response|e] remote']; cbn; [|reflexivity].
  destruct (first_block_number response) as [result|[]]; reflexivity.
Qed.


(** X18 -- the number in the answer of the subgraph.  When the first block
    of the response has a [number], the method returns it when it is an
    integer or a string that [int] reads; a string that [int] does not read
    raises [ValueError] and a null number [TypeError], neither of which is
    turned into a [RemoteError]. *)
Theorem subgraph_number ts n d block rest number remote' :
  blocks_subgraph_query (blocks_query ts) (remote n)
  = (Return (JDict d), remote') ->
  d !! "blocks" = Some (JList (JDict block :: rest)) ->
  block !! "number" = Some number ->
  let result := fst (_get_blocknumber_by_time_from_subgraph ts n) in
  (forall z, number = JInt z -> result = Return z)
  /\ (forall s z, number = JStr s -> int_of_str s = Some z ->
        result = Return z)
  /\ (forall s, number = JStr s -> int_of_str s = None ->
        result = Raise ValueError)
  /\ (number = JNull -> result = Raise TypeError).
Proof.
  intros Hasked Hblocks Hnumber. cbv zeta.
  rewrite subgraph_run, Hasked. cbn [fst snd].
  unfold first_block_number. cbn. rewrite Hblocks. cbn. rewrite Hnumber. cbn.
  repeat split.
  - by intros z ->.
  - intros s z -> Hread. cbn. by rewrite Hread.
  - intros s -> Hread. cbn. by rewrite Hread.
  - by intros ->.
Qed.

(** ** [get_blocknumber_by_time] *)

(** X19 -- etherscan first, the subgraph as fallback.  With etherscan
    disabled the method asks the subgraph only.  With etherscan enabled it
    asks etherscan first: an answer is returned and the subgraph is not
    asked; a [RemoteError] is suppressed and the method goes on exactly as
    the subgraph method does from there; any other exception reaches the
    caller and the subgraph is not asked. *)
Theorem blocknumber_by_time_fallback ts closest n :
  let asked := etherscan_get_blocknumber_by_time ts closest (remote n) in
  let n1 := {| remote := snd asked;
               calls := calls n
                        ++ [CallEtherscanBlocknumberByTime ts closest] |} in
  calls (snd (get_blocknumber_by_time ts false closest n))
  = calls n ++ [CallBlocksSubgraph (blocks_query ts)]
  /\ (forall result,
        fst asked = Return result ->
        get_blocknumber_by_time ts true closest n = (Return result, n1))
  /\ (forall message,
        fst asked = Raise (RemoteError message) ->
        get_blocknumber_by_time ts true closest n
        = _get_blocknumber_by_time_from_subgraph ts n1
        /\ calls (snd (get_blocknumber_by_time ts true closest n))
           = calls n
             ++ [CallEtherscanBlocknumberByTime ts closest;
                 CallBlocksSubgraph (blocks_query ts)])
  /\ (forall e,
        fst asked = Raise e ->
        (forall message, e ≠ RemoteError message) ->
        get_blocknumber_by_time ts true closest n = (Raise e, n1)).
Proof.
  cbv zeta.
  assert (forall m,
            calls (snd (_get_blocknumber_by_time_from_subgraph ts m))
            = calls m ++ [CallBlocksSubgraph (blocks_query ts)]) as Hsub.
  { intros m. rewrite subgraph_run.
    destruct (blocks_subgraph_query (blocks_query ts) (remote m))
      as [[response|e] remote']; cbn; [|reflexivity].
    by destruct (first_block_number response) as [result|[]]. }
  split; [apply Hsub|].
  unfold get_blocknumber_by_time, external.
  destruct (etherscan_get_blocknumber_by_time ts closest (remote n))
    as [[result|e] remote']; cbn [fst snd].
  - split; [by intros ? [= ->]|]. split; [discriminate|discriminate].
  - split; [discriminate|]. split.
    + intros message [= ->]. split; [reflexivity|].
      rewrite Hsub. cbn. by rewrite <- app_assoc.
    + intros e' [= <-] Hother. destruct e; try reflexivity.
      by destruct (Hother message).
Qed.

(** ** [query_highest_block] *)

(** X20 -- blockcypher first, etherscan as fallback.  When blockcypher
    answers with a [height], the method returns [int(height)], or raises
    what [int] raises, and etherscan is not asked.  When blockcypher answers
    without a [height], or the request raises [RemoteError],
    [UnableToDecryptRemoteData] or a [RequestException], the method ends as
    the call of etherscan for the latest block number ends.  Any other
    exception of the request reaches the caller and etherscan is not
    asked. *)
Theorem query_highest_block_fallback n :
  let asked := request_get_dict BLOCKCYPHER_URL (remote n) in
  let n1 := {| remote := snd asked;
               calls := calls n ++ [CallRequestGetDict BLOCKCYPHER_URL] |} in
  let fallback :=
    external CallEtherscanLatestBlockNumber
      etherscan_get_latest_block_number n1 in
  (forall d height,
     fst asked = Return d -> d !! "height" = Some height ->
     query_highest_block n = (py_int height, n1))
  /\ (forall d,
        fst asked = Return d -> d !! "height" = None ->
        query_highest_block n = fallback)
  /\ (forall e,
        fst asked = Raise e ->
        (exists message, e = RemoteError message)
        \/ e = UnableToDecryptRemoteData \/ e = RequestException ->
        query_highest_block n = fallback)
  /\ (forall e,
        fst asked = Raise e ->
        (forall message, e ≠ RemoteError message) ->
        e ≠ UnableToDecryptRemoteData -> e ≠ RequestException ->
        query_highest_block n = (Raise e, n1))
  /\ calls (snd fallback)
     = calls n ++ [CallRequestGetDict BLOCKCYPHER_URL;
                   CallEtherscanLatestBlockNumber].
Proof.
  cbv zeta.
  unfold query_highest_block, bind, try_except, external, ret, lift.
  destruct (request_get_dict BLOCKCYPHER_URL (remote n))
    as [[d|e] remote'] eqn:Hasked; cbn [fst snd].
  - repeat split; try discriminate.
    + intros d' height [= <-] Hheight.
      assert (size d ≠ 0%nat) as Hsize.
      { intros Hzero. apply map_size_empty_inv in Hzero. subst d.
        by rewrite lookup_empty in Hheight. }
      rewrite (bool_decide_eq_true_2 _ Hsize).
      rewrite (bool_decide_eq_true_2 (is_Some (d !! "height")))
        by (by rewrite Hheight).
      cbn. rewrite Hheight. by destruct (py_int height).
    + intros d' [= <-] Hheight.
      rewrite (bool_decide_eq_false_2 (is_Some (d !! "height")))
        by (rewrite Hheight; by intros [? ?]).
      by rewrite andb_false_r.
    + cbn. destruct (etherscan_get_latest_block_number remote'); cbn.
      by rewrite <- app_assoc.
  - repeat split; try discriminate.
    + intros e' [= <-] [[message ->]|[->| ->]]; reflexivity.
    + intros e' [= <-] Hremote Hdecrypt Hrequest.
      destruct e; try reflexivity; try done.
      by destruct (Hremote message).
    + cbn. destruct (etherscan_get_latest_block_number remote'); cbn.
      by rewrite <- app_assoc.
Qed.

(** ** [_ens_lookup] *)

(** X21 -- the calls of an ENS lookup.  A name that does not normalise
    raises [InputError] with the message of [InvalidName] and no contract is
    called.  Otherwise the method first asks the ENS registry for the
    resolver of the name, and then makes at most one more call, to that
    resolver: it is made exactly when the first call returned an address
    that is neither none nor zero and that deserialises. *)
Theorem ens_lookup_calls web3 name blockchain n :
  let run := _ens_lookup web3 name blockchain n in
  (forall message,
     normalize_name name = inl message ->
     run = (Raise (InputError message), n))
  /\ (forall normal_name,
        normalize_name name = inr normal_name ->
        let asked :=
          _call_contract web3 ENS_MAINNET_ADDR ENS_ABI "resolver"
            [ArgBytes (normal_name_to_hash normal_name)] (remote n) in
        match fst asked with
        | Return resolver_addr =>
            match is_none_or_zero_address resolver_addr,
                  deserialize_evm_address resolver_addr with
            | false, Some resolver =>
                calls (snd run)
                = calls n
                  ++ [resolver_call web3 normal_name;
                      addr_call web3 normal_name blockchain resolver]
            | _, _ =>
                run
                = (Return None,
                   {| remote := snd asked;
                      calls := calls n
                               ++ [resolver_call web3 normal_name] |})
            end
        | Raise e =>
            run
            = (Raise e,
               {| remote := snd asked;
                  calls := calls n ++ [resolver_call web3 normal_name] |})
        end).
Proof.
  cbv zeta. unfold _ens_lookup, resolver_call, addr_call.
  split.
  - intros message Hname. by rewrite Hname.
  - intros normal_name Hname. rewrite Hname.
    unfold bind, external, ret.
    destruct (_call_contract web3 ENS_MAINNET_ADDR ENS_ABI "resolver" _
                (remote n)) as [[resolver_addr|e] remote1];
      cbn [fst snd]; [|reflexivity].
    destruct (is_none_or_zero_address resolver_addr); [reflexivity|].
    destruct (deserialize_evm_address resolver_addr) as [resolver|];
      [|reflexivity].
    cbn [remote calls].
    destruct (decide (blockchain = ETHEREUM)) as [->|Hother].
    + rewrite (bool_decide_eq_false_2 (ETHEREUM ≠ ETHEREUM)) by tauto.
      rewrite (bool_decide_eq_true_2 (ETHEREUM = ETHEREUM)) by done.
      destruct (_call_contract web3 resolver ENS_RESOLVER_ABI "addr" _
                  remote1) as [[address|e] remote2]; cbn;
        [|by rewrite <- app_assoc].
      destruct (is_none_or_zero_address address);
        [cbn; by rewrite <- app_assoc|].
      destruct (deserialize_evm_address address); cbn;
        by rewrite <- app_assoc.
    + rewrite (bool_decide_eq_true_2 (blockchain ≠ ETHEREUM)) by done.
      rewrite (bool_decide_eq_false_2 (blockchain = ETHEREUM)) by done.
      destruct (_call_contract web3 resolver _ "addr" _ remote1)
        as [[address|e] remote2]; cbn; [|by rewrite <- app_assoc].
      destruct (is_none_or_zero_address address); cbn;
        by rewrite <- app_assoc.
Qed.

(** X22 -- what an ENS lookup can answer.  When [_ens_lookup] returns an
    address, the name normalised, the registry returned a resolver that is
    neither none nor zero and that deserialises, the resolver returned an
    address that is neither none nor zero, and the answer is that address
    deserialised, for Ethereum, or in hexadecimal, for another chain: in no
    case the zero address. *)
Theorem ens_lookup_answer web3 name blockchain n answer n' :
  _ens_lookup web3 name blockchain n = (Return (Some answer), n') ->
  exists normal_name resolver_addr resolver address remote1 remote2,
    normalize_name name = inr normal_name
    /\ _call_contract web3 ENS_MAINNET_ADDR ENS_ABI "resolver"
         [ArgBytes (normal_name_to_hash normal_name)] (remote n)
       = (Return resolver_addr, remote1)
    /\ is_none_or_zero_address resolver_addr = false
    /\ deserialize_evm_address resolver_addr = Some resolver
    /\ fst (_call_contract web3 resolver
              (if bool_decide (blockchain = ETHEREUM)
               then ENS_RESOLVER_ABI
               else ENS_RESOLVER_ABI ++ ENS_RESOLVER_ABI_MULTICHAIN_ADDRESS)
              "addr"
              (if bool_decide (blockchain = ETHEREUM)
               then [ArgBytes (normal_name_to_hash normal_name)]
               else [ArgBytes (normal_name_to_hash normal_name);
                     ArgInt (ens_coin_type blockchain)])
              remote1)
       = Return address
    /\ remote n' = remote2
    /\ is_none_or_zero_address address = false
    /\ (if bool_decide (blockchain = ETHEREUM)
        then deserialize_evm_address address = Some answer
        else answer = value_hex address).
Proof.
  unfold _ens_lookup. intros Hrun.
  destruct (normalize_name name) as [message|normal_name] eqn:Hname;
    [discriminate|].
  unfold bind, external, ret in Hrun.
  destruct (_call_contract web3 ENS_MAINNET_ADDR ENS_ABI "resolver" _
              (remote n)) as [[resolver_addr|e] remote1] eqn:Hfirst;
    [|discriminate].
  destruct (is_none_or_zero_address resolver_addr) eqn:Hzero1;
    [discriminate|].
  destruct (deserialize_evm_address resolver_addr) as [resolver|] eqn:Hdes;
    [|discriminate].
  cbn [remote calls] in Hrun.
  destruct (decide (blockchain = ETHEREUM)) as [->|Hother].
  - rewrite (bool_decide_eq_false_2 (ETHEREUM ≠ ETHEREUM)) in Hrun by tauto.
    rewrite (bool_decide_eq_true_2 (ETHEREUM = ETHEREUM)) by done.
    destruct (_call_contract web3 resolver ENS_RESOLVER_ABI "addr" _ remote1)
      as [[address|e] remote2] eqn:Hsecond; [|discriminate].
    destruct (is_none_or_zero_address address) eqn:Hzero2; [discriminate|].
    destruct (deserialize_evm_address address) as [checksummed|] eqn:Hdes2;
      [|discriminate].
    injection Hrun as <- <-.
    exists normal_name, resolver_addr, resolver, address, remote1, remote2.
    by rewrite Hsecond.
  - rewrite (bool_decide_eq_true_2 (blockchain ≠ ETHEREUM)) in Hrun by done.
    rewrite (bool_decide_eq_false_2 (blockchain = ETHEREUM)) by done.
    destruct (_call_contract web3 resolver _ "addr" _ remote1)
      as [[address|e] remote2] eqn:Hsecond; [|discriminate].
    destruct (is_none_or_zero_address address) eqn:Hzero2; [discriminate|].
    injection Hrun as <- <-.
    exists normal_name, resolver_addr, resolver, address, remote1, remote2.
    by rewrite Hsecond.
Qed.

End InquirerFacts.

End EthereumInquirerFacts.

(** * The further facts on the concrete environment *)

Module ScenarioMoreFacts.
Import Scenario ScenarioMore.

(** Witness of X3: an event already classified as a deposit. *)
Lemma classified_event_untouched_witness :
  ¬ unclassified (heap deposited_world 0%nat)
  /\ heap (snd (_decode_convex_events (alice_context [0%nat])
                  deposited_world)) 0%nat
     = heap deposited_world 0%nat.
Proof.
  assert (¬ unclassified (heap deposited_world 0%nat)) as Hclassified.
  { intros [[Htype|Htype] _]; vm_compute in Htype; congruence. }
  split; [exact Hclassified|].
  exact (classified_event_untouched (alice_context [0%nat]) deposited_world
           0%nat Hclassified).
Defined.

(** Witness of X4: Alice's spend to the zero address becomes a return of
    wrapped tokens. *)
Lemma mutation_is_reclassification_witness :
  let e' := heap (snd (_decode_convex_events (alice_context [0%nat])
                         burn_world)) 0%nat in
  reclassified_from (heap burn_world 0%nat) e'
  /\ HistoryEvent.counterparty e' = Some "convex".
Proof.
  destruct (mutation_is_reclassification (alice_context [0%nat]) burn_world
              0%nat) as (_ & _ & _ & Hreclassified & Hcounterparty & _).
  - vm_compute. congruence.
  - split; [exact Hreclassified|exact Hcounterparty].
Defined.

(** Witness of X6: the spend of the unknown asset listed twice, around the
    spend of [CVX]. *)
Lemma decode_convex_events_notifications_witness :
  msg_aggregator
    (snd (_decode_convex_events (alice_context [0%nat; 1%nat; 0%nat])
            mixed_world))
  = [{| about_event := 0%nat; about_counterparty := "convex" |};
     {| about_event := 0%nat; about_counterparty := "convex" |}].
Proof.
  rewrite (decode_convex_events_notifications
             (alice_context [0%nat; 1%nat; 0%nat]) mixed_world).
  - reflexivity.
  - by exists (address_topic xa1).
Defined.

(** Witness of X9: the receipt of an unknown asset. *)
Lemma enrichment_exceptions_witness :
  snd (_maybe_enrich_convex_transfers abra_context (abra_world "mystery"))
  = abra_world "mystery".
Proof.
  destruct (enrichment_exceptions abra_context (abra_world "mystery")
              (AssetException UnknownAsset)) as [Hworld _].
  - reflexivity.
  - exact Hworld.
Defined.

(** Witness of X11: the return of wrapped tokens is not enriched. *)
Lemma decoded_event_not_enriched_witness :
  let w' := snd (_decode_convex_events (alice_context [0%nat]) burn_world) in
  snd (_maybe_enrich_convex_transfers abra_context w') = w'.
Proof.
  apply (decoded_event_not_enriched (alice_context [0%nat]) abra_context
           burn_world).
  vm_compute. congruence.
Defined.

(** Witness of X12: the reward paid through an intermediary token is not
    decoded again. *)
Lemma enriched_event_not_decoded_witness :
  let w' :=
    snd (_maybe_enrich_convex_transfers abra_context (abra_world "CVX")) in
  heap (snd (_decode_convex_events (alice_context [0%nat]) w')) 0%nat
  = heap w' 0%nat.
Proof.
  apply (enriched_event_not_decoded abra_context (alice_context [0%nat])
           (abra_world "CVX")).
  vm_compute. congruence.
Defined.

(** The registry on the concrete constants: the pool and the booster are
    registered, Alice is not. *)
Example registry_lookups :
  addresses_to_decoders !! pool = Some [_decode_convex_events]
  /\ addresses_to_decoders !! booster = Some [_decode_convex_events]
  /\ addresses_to_decoders !! alice = None.
Proof. repeat split; vm_compute; reflexivity. Qed.

End ScenarioMoreFacts.

Module InquirerScenarioFacts.
Import EthereumInquirer EthereumInquirerFacts InquirerScenario.

Local Open Scope Z_scope.

(** Witness of X14: a lookup of two addresses, one with a name. *)
Lemma ens_reverse_lookup_entries_witness :
  ens_reverse_lookup [vitalik; stranger] fresh
  = (Return two_names, after_lookup)
  /\ vitalik ∈ concat (get_chunks [vitalik; stranger]
                         MAX_ADDRESSES_IN_REVERSE_ENS_QUERY)
  /\ Some "vitalik.eth" ≠ Some "".
Proof.
  assert (ens_reverse_lookup [vitalik; stranger] fresh
          = (Return two_names, after_lookup)) as Hrun
    by (vm_compute; reflexivity).
  split; [exact Hrun|].
  apply (ens_reverse_lookup_entries [vitalik; stranger] fresh two_names
           after_lookup vitalik (Some "vitalik.eth") Hrun).
  vm_compute. reflexivity.
Defined.

(** Witness of X15: the address without a name has an entry too. *)
Lemma ens_reverse_lookup_complete_witness :
  is_Some (two_names !! stranger).
Proof.
  apply (ens_reverse_lookup_complete [vitalik; stranger] fresh two_names
           after_lookup stranger).
  - intros chunk served result served' [= <- _]. apply length_fmap.
  - vm_compute. reflexivity.
  - vm_compute. apply list_elem_of_further, list_elem_of_here.
Defined.


(** Witness of X18: the number of the block is read from a string. *)
Lemma subgraph_number_witness :
  fst (_get_blocknumber_by_time_from_subgraph 1600000000 fresh)
  = Return 16000000.
Proof.
  destruct (subgraph_number 1600000000 fresh
              {[ "blocks" := JList [JDict {[ "number" := JStr "16000000" ]}] ]}
              {[ "number" := JStr "16000000" ]} [] (JStr "16000000") 1%nat)
    as (_ & Hstring & _).
  - reflexivity.
  - vm_compute. reflexivity.
  - vm_compute. reflexivity.
  - apply (Hstring "16000000" 16000000); [reflexivity|].
    vm_compute. reflexivity.
Defined.

(** Witness of X22: the lookup of a name on Ethereum. *)
Lemma ens_lookup_answer_witness :
  exists resolver_addr address,
    is_none_or_zero_address resolver_addr = false
    /\ is_none_or_zero_address address = false
    /\ deserialize_evm_address address = Some vitalik.
Proof.
  destruct (ens_lookup_answer None "vitalik.eth" ETHEREUM fresh vitalik
              (snd (_ens_lookup None "vitalik.eth" ETHEREUM fresh)))
    as (normal_name & resolver_addr & resolver & address & remote1 & remote2
        & _ & _ & Hzero1 & _ & _ & _ & Hzero2 & Hanswer).
  - vm_compute. reflexivity.
  - exists resolver_addr, address. auto.
Defined.

(** Etherscan is down in this network: the block number by time comes from
    the subgraph, after one call of each. *)
Example blocknumber_from_subgraph :
  get_blocknumber_by_time 1600000000 true before fresh
  = (Return 16000000,
     {| remote := 2%nat;
        calls := [CallEtherscanBlocknumberByTime 1600000000 before;
                  CallBlocksSubgraph (blocks_query 1600000000)] |}).
Proof. vm_compute. reflexivity. Qed.

End InquirerScenarioFacts.

